(** * add_files_to_xcode.py: the batch file registrar

    A shallow embedding of [src/add_files_to_xcode.py] and the
    properties of its run.

    The script talks to its host through four calls: [os.chdir],
    [os.path.exists], [os.path.abspath] and [subprocess.run], and writes
    to standard output with [print].  The host is an interface
    ([Host]) over an abstract world; the script is a computation that
    threads the world, may raise an exception, and records every call
    it makes, with the answer it got, in a trace.

    How the calls behave.
    - Text is [string]; a character is a code point below 256.
    - [print s] writes [s] and a line feed to standard output.  The
      trace keeps the text of each call ([EvPrint]); [written] is the
      stream they make up, and a text that holds line feeds is several
      lines of it.
    - [os.chdir] either succeeds or raises [OSError] with the error the
      host reports: [FileNotFoundError] when the directory is missing,
      [NotADirectoryError], [PermissionError] and so on otherwise.
    - [subprocess.run(..., shell=True, capture_output=True, text=True,
      check=True)] has three kinds of outcome.  The shell may not start
      ([OSError], or [ValueError] for a command line holding a NUL).
      The process may run to its end with captured output that is not
      text in the locale's encoding: the streams are decoded before the
      return code is looked at, so [UnicodeDecodeError] is raised
      whatever the code.  Otherwise the process completes with two
      texts and a return code, and a code other than zero raises
      [CalledProcessError].
    - Standard output takes whatever is written to it: [print] does
      not raise.
    - [os.path.exists] never raises.  [os.path.abspath] is called only
      right after [os.path.exists] answered yes for the same relative
      path in the same world, where the current directory is there to
      be read, so it returns. *)

From Stdlib Require Import String Ascii List ZArith Bool Lia.
Import ListNotations.
Local Open Scope string_scope.
Local Open Scope list_scope.

(** ** Data *)

(** [subprocess.CompletedProcess], with [capture_output=True] and
    [text=True]. *)
Record CompletedProcess : Type := mkCompleted {
  returncode : Z;
  stdout : string;
  stderr : string
}.

(** The error number of an [OSError]. *)
Inductive os_error : Type :=
| ENOENT
| ENOTDIR
| EACCES
| Errno (n : Z).

(** Why no process was started. *)
Inductive start_error : Type :=
| StartOSError (e : os_error)
| StartValueError.

(** What became of one command line handed to the shell. *)
Inductive Spawned : Type :=
| Completed (res : CompletedProcess)
| Garbled (code : Z)
| NotStarted (e : start_error).

(** The exceptions the script can meet.  [FileNotFoundError],
    [NotADirectoryError] and [PermissionError] are [OSError] with the
    error numbers [ENOENT], [ENOTDIR] and [EACCES]. *)
Inductive exn : Type :=
| OSError (e : os_error) (filename : string)
| ValueError
| UnicodeDecodeError
| CalledProcessError (code : Z) (cmd : string) (output : string) (err : string).


Inductive Result (A : Type) : Type :=
| Ok (a : A)
| Raised (e : exn).
Arguments Ok {A} a.
Arguments Raised {A} e.

(** The answer of [os.chdir]. *)
Inductive Chdir (World : Type) : Type :=
| Entered (w : World)
| Refused (e : os_error).
Arguments Entered {World} w.
Arguments Refused {World} e.

(** What the run does to its surroundings, in order. *)
Inductive event : Type :=
| EvChdir (dir : string) (ok : bool)
| EvExists (path : string) (answer : bool)
| EvAbspath (path : string) (answer : string)
| EvPrint (text : string)
| EvRun (cmd : string) (res : Spawned).

(** The host: the operating system as the script sees it. *)
Class Host (World : Type) : Type := {
  (** [os.chdir]. *)
  host_chdir : string -> World -> Chdir World;
  (** [os.path.exists], relative to the current directory. *)
  host_exists : string -> World -> bool;
  (** [os.path.abspath]. *)
  host_abspath : string -> World -> string;
  (** The shell handed one command line, and the world afterwards. *)
  host_spawn : string -> World -> Spawned * World
}.

(** ** Text helpers *)

Definition dquote : string := String "034"%char EmptyString.
Definition squote : string := String "039"%char EmptyString.
Definition LF : string := String "010"%char EmptyString.

(** [str.isspace] on one character. *)
Definition isspace (c : ascii) : bool :=
  let n := nat_of_ascii c in
  ((9 <=? n)%nat && (n <=? 13)%nat) || ((28 <=? n)%nat && (n <=? 32)%nat)
  || (n =? 133)%nat || (n =? 160)%nat.

Fixpoint lstrip (s : string) : string :=
  match s with
  | EmptyString => EmptyString
  | String c r => if isspace c then lstrip r else s
  end.

Fixpoint rstrip (s : string) : string :=
  match s with
  | EmptyString => EmptyString
  | String c r =>
      match rstrip r with
      | EmptyString => if isspace c then EmptyString else String c EmptyString
      | r' => String c r'
      end
  end.

(** [str.strip()] with no argument. *)
Definition strip (s : string) : string := rstrip (lstrip s).

Fixpoint all_space (s : string) : bool :=
  match s with
  | EmptyString => true
  | String c r => isspace c && all_space r
  end.

Definition first_char (s : string) : option ascii :=
  match s with
  | EmptyString => None
  | String c _ => Some c
  end.

Fixpoint last_char (s : string) : option ascii :=
  match s with
  | EmptyString => None
  | String c EmptyString => Some c
  | String _ r => last_char r
  end.

Definition is_quote (c : ascii) : bool :=
  Ascii.eqb c "034"%char || Ascii.eqb c "039"%char.

(** The quote characters of a text, in order. *)
Fixpoint quote_skeleton (s : string) : string :=
  match s with
  | EmptyString => EmptyString
  | String c r =>
      if is_quote c then String c (quote_skeleton r) else quote_skeleton r
  end.

(** The number of line feeds in a text. *)
Fixpoint count_lf (s : string) : nat :=
  match s with
  | EmptyString => 0
  | String c r => (if Ascii.eqb c "010"%char then 1 else 0) + count_lf r
  end.

(** ** The script *)

Section Registrar.
Context {World : Type} {H : Host World}.

Definition M (A : Type) : Type := World -> Result A * World * list event.

Definition ret {A : Type} (a : A) : M A := fun w => (Ok a, w, []).

Definition bind {A B : Type} (m : M A) (f : A -> M B) : M B :=
  fun w =>
    match m w with
    | (Ok a, w1, t1) =>
        match f a w1 with
        | (r, w2, t2) => (r, w2, t1 ++ t2)
        end
    | (Raised e, w1, t1) => (Raised e, w1, t1)
    end.

(** [try: body except subprocess.CalledProcessError as e: handler];
    any other exception goes through. *)
Definition try_except_CalledProcessError {A : Type}
  (body : M A) (handler : Z -> string -> string -> string -> M A) : M A :=
  fun w =>
    match body w with
    | (Raised (CalledProcessError c cmd out err), w1, t1) =>
        match handler c cmd out err w1 with
        | (r, w2, t2) => (r, w2, t1 ++ t2)
        end
    | other => other
    end.

Notation "x <- m ;; k" := (bind m (fun x => k))
  (at level 61, m at next level, right associativity).
Notation "m ;;; k" := (bind m (fun _ => k))
  (at level 61, right associativity).

Definition os_chdir (d : string) : M unit :=
  fun w =>
    match host_chdir d w with
    | Entered w' => (Ok tt, w', [EvChdir d true])
    | Refused e => (Raised (OSError e d), w, [EvChdir d false])
    end.

Definition os_path_exists (p : string) : M bool :=
  fun w => let b := host_exists p w in (Ok b, w, [EvExists p b]).

Definition os_path_abspath (p : string) : M string :=
  fun w => let a := host_abspath p w in (Ok a, w, [EvAbspath p a]).

Definition print (s : string) : M unit :=
  fun w => (Ok tt, w, [EvPrint s]).

(** [subprocess.run(cmd, shell=True, capture_output=True, text=True,
    check=True)] *)
Definition subprocess_run (cmd : string) : M CompletedProcess :=
  fun w =>
    match host_spawn cmd w with
    | (NotStarted (StartOSError e), w') =>
        (Raised (OSError e "/bin/sh"), w', [EvRun cmd (NotStarted (StartOSError e))])
    | (NotStarted StartValueError, w') =>
        (Raised ValueError, w', [EvRun cmd (NotStarted StartValueError)])
    | (Garbled code, w') =>
        (Raised UnicodeDecodeError, w', [EvRun cmd (Garbled code)])
    | (Completed res, w') =>
        if (returncode res =? 0)%Z
        then (Ok res, w', [EvRun cmd (Completed res)])
        else (Raised (CalledProcessError (returncode res) cmd
                        (stdout res) (stderr res)),
              w', [EvRun cmd (Completed res)])
    end.

(** [for x in l: body x] *)
Fixpoint for_each {A : Type} (l : list A) (body : A -> M unit) : M unit :=
  match l with
  | [] => ret tt
  | x :: r => body x ;;; for_each r body
  end.

(** [run_command]: the stripped output, or [None] after a failure it
    has reported. *)
Definition run_command (cmd : string) : M (option string) :=
  try_except_CalledProcessError
    (result <- subprocess_run cmd ;;
     ret (Some (strip (stdout result))))
    (fun _ _ _ e_stderr =>
       print ("Error running command: " ++ cmd) ;;;
       print ("Error: " ++ e_stderr) ;;;
       ret None).

Definition project_dir : string :=
  "/Users/henryfritz/Personal Projects/PrestigeNative".

Definition files_to_add : list string := [
  "PrestigeNative/Core/Models/APIEndpoints.swift";
  "PrestigeNative/Core/Models/APIModels.swift";
  "PrestigeNative/Core/Models/PrestigeModels.swift";
  "PrestigeNative/Core/Models/UserModels.swift";
  "PrestigeNative/Core/Networking/APIClient.swift";
  "PrestigeNative/Core/Networking/AuthManager.swift";
  "PrestigeNative/Core/Networking/Services/FriendsService.swift";
  "PrestigeNative/Core/Networking/Services/ProfileService.swift";
  "PrestigeNative/Core/Networking/Services/SpotifyService.swift";
  "PrestigeNative/Features/Authentication/Components/LoadingButton.swift";
  "PrestigeNative/Features/Authentication/ViewModels/LoginViewModel.swift";
  "PrestigeNative/Features/Authentication/Views/AuthenticationView.swift";
  "PrestigeNative/Features/Authentication/Views/LoginView.swift"
].

(** The f-string of the command line, given the absolute path. *)
Definition build_cmd (abs : string) : string :=
  "osascript -e 'tell application " ++ dquote ++ "Xcode" ++ dquote
  ++ " to open " ++ dquote ++ abs ++ dquote ++ ";'".

Definition adding_line (file_path : string) : string :=
  "Adding " ++ file_path ++ " to Xcode project...".

Definition warning_line (file_path : string) : string :=
  "Warning: " ++ file_path ++ " does not exist".

Definition closing_message : string :=
  "Files added to Xcode project. Please check Xcode to confirm they appear in the navigator.".

(** The body of the loop of [main]. *)
Definition add_file (file_path : string) : M unit :=
  found <- os_path_exists file_path ;;
  if found then
    print (adding_line file_path) ;;;
    abs <- os_path_abspath file_path ;;
    _ <- run_command (build_cmd abs) ;;
    ret tt
  else
    print (warning_line file_path).

Definition main : M unit :=
  os_chdir project_dir ;;;
  for_each files_to_add add_file ;;;
  print closing_message.

(** [if __name__ == "__main__": main()]: the exit status of the
    process, 1 when an exception reaches the top level. *)
Definition script (w : World) : Z * World * list event :=
  match main w with
  | (Ok _, w', t) => (0%Z, w', t)
  | (Raised _, w', t) => (1%Z, w', t)
  end.

End Registrar.

Arguments M {World} A.

(** ** Observing a run *)

Definition result_of {A W : Type} (r : Result A * W * list event) : Result A :=
  fst (fst r).
Definition world_of {A W : Type} (r : Result A * W * list event) : W :=
  snd (fst r).
Definition trace_of {A W : Type} (r : Result A * W * list event) : list event :=
  snd r.

(** The existence checks of a trace, with their answers. *)
Fixpoint exists_log (t : list event) : list (string * bool) :=
  match t with
  | [] => []
  | EvExists p a :: r => (p, a) :: exists_log r
  | _ :: r => exists_log r
  end.

(** The paths made absolute, with their absolute forms. *)
Fixpoint abspath_log (t : list event) : list (string * string) :=
  match t with
  | [] => []
  | EvAbspath p a :: r => (p, a) :: abspath_log r
  | _ :: r => abspath_log r
  end.

(** The command lines handed to the shell, with what became of them. *)
Fixpoint runs (t : list event) : list (string * Spawned) :=
  match t with
  | [] => []
  | EvRun c res :: r => (c, res) :: runs r
  | _ :: r => runs r
  end.

Definition commands (t : list event) : list string := map fst (runs t).

(** The texts given to [print], one for each call. *)
Fixpoint printed (t : list event) : list string :=
  match t with
  | [] => []
  | EvPrint s :: r => s :: printed r
  | _ :: r => printed r
  end.

(** Standard output as a stream: each printed text and its line
    feed. *)
Fixpoint written (t : list event) : string :=
  match t with
  | [] => EmptyString
  | EvPrint s :: r => s ++ LF ++ written r
  | _ :: r => written r
  end.

(** The command ran to its end with text output and a code other than
    zero: the failure [run_command] catches. *)
Definition failed (o : Spawned) : bool :=
  match o with
  | Completed res => negb (returncode res =? 0)%Z
  | _ => false
  end.

(** What gets out of [run_command] for an outcome of the shell: the
    exceptions it does not catch. *)
Definition escapes (o : Spawned) : option exn :=
  match o with
  | Completed _ => None
  | Garbled _ => Some UnicodeDecodeError
  | NotStarted (StartOSError e) => Some (OSError e "/bin/sh")
  | NotStarted StartValueError => Some ValueError
  end.

(** The outcome puts an end to the run. *)
Definition aborts (o : Spawned) : bool :=
  match o with
  | Completed _ => false
  | _ => true
  end.

(** No command of the trace put an end to the run. *)
Definition clean_run (t : list event) : bool :=
  forallb (fun r => negb (aborts (snd r))) (runs t).

(** A print call of the handler of [run_command]: its text starts with
    "Error". *)
Definition is_error_line (s : string) : bool := String.prefix "Error" s.

(** The print calls other than those of the handler. *)
Definition info_lines (t : list event) : list string :=
  filter (fun s => negb (is_error_line s)) (printed t).

(** What follows a finished entry: the check of the next path, or the
    closing message and nothing more. *)
Definition entry_done (t : list event) : Prop :=
  match t with
  | EvExists _ _ :: _ => True
  | [EvPrint s] => s = closing_message
  | _ => False
  end.

(** What the run itself may ask of the filesystem. *)
Definition fs_access_allowed (e : event) : Prop :=
  match e with
  | EvChdir d _ => d = project_dir
  | EvExists p _ => In p files_to_add
  | EvAbspath p _ => In p files_to_add
  | EvPrint _ => True
  | EvRun _ _ => True
  end.

(** Does the text hold a single or a double quote? *)
Fixpoint has_quote (s : string) : bool :=
  match s with
  | EmptyString => false
  | String c r => is_quote c || has_quote r
  end.

(** The quote characters of the command line built for a path with no
    quote of its own: one pair of single quotes around two pairs of
    double quotes. *)
Definition plain_skeleton : string :=
  squote ++ dquote ++ dquote ++ dquote ++ dquote ++ squote.

(** The line the loop prints for a path, given the answer of its
    existence check. *)
Definition entry_line (pa : string * bool) : string :=
  if snd pa then adding_line (fst pa) else warning_line (fst pa).

(** ** Replaying the commands of a run *)

(** The world after handing the given command lines to the shell one
    after the other. *)
Definition replay {World : Type} {H : Host World}
  (cmds : list string) (w : World) : World :=
  fold_left (fun u c => snd (host_spawn c u)) cmds w.

(** ** One turn of the loop, spelled out *)

Section Turn.
Context {World : Type} {H : Host World}.

(** The print calls of the handler, for an outcome. *)
Definition handler_prints (cmd : string) (o : Spawned) : list event :=
  match o with
  | Completed res =>
      if (returncode res =? 0)%Z then []
      else [EvPrint ("Error running command: " ++ cmd);
            EvPrint ("Error: " ++ stderr res)]
  | _ => []
  end.

Definition turn_events (p : string) (u : World) : list event :=
  if host_exists p u
  then
    let cmd := build_cmd (host_abspath p u) in
    [EvExists p true; EvPrint (adding_line p);
     EvAbspath p (host_abspath p u); EvRun cmd (fst (host_spawn cmd u))]
    ++ handler_prints cmd (fst (host_spawn cmd u))
  else [EvExists p false; EvPrint (warning_line p)].

Definition turn_world (p : string) (u : World) : World :=
  if host_exists p u
  then snd (host_spawn (build_cmd (host_abspath p u)) u)
  else u.

Definition turn_raises (p : string) (u : World) : option exn :=
  if host_exists p u
  then escapes (fst (host_spawn (build_cmd (host_abspath p u)) u))
  else None.

(** The loop from world [u] over a list: its result, the world it
    leaves and its trace. *)
Inductive loop_run : World -> list string -> Result unit -> World
                     -> list event -> Prop :=
| lr_nil u : loop_run u [] (Ok tt) u []
| lr_step u p l r u' t :
    turn_raises p u = None ->
    loop_run (turn_world p u) l r u' t ->
    loop_run u (p :: l) r u' (turn_events p u ++ t)
| lr_abort u p l x :
    turn_raises p u = Some x ->
    loop_run u (p :: l) (Raised x) (turn_world p u) (turn_events p u).

(** The value [run_command] returns for an outcome it does not let
    through as an exception. *)
Definition run_value (o : Spawned) : option string :=
  match o with
  | Completed res =>
      if (returncode res =? 0)%Z then Some (strip (stdout res)) else None
  | _ => None
  end.

(** What [main] adds after the loop. *)
Definition closing_events (r : Result unit) : list event :=
  match r with
  | Ok _ => [EvPrint closing_message]
  | Raised _ => []
  end.

End Turn.

(** ** Hosts *)

(** A host that hands back [f cmd o] in place of the outcome [o]. *)
Definition with_outcome {World : Type}
  (f : string -> Spawned -> Spawned) (H : Host World) : Host World := {|
  host_chdir := @host_chdir World H;
  host_exists := @host_exists World H;
  host_abspath := @host_abspath World H;
  host_spawn := fun cmd w =>
    match @host_spawn World H cmd w with
    | (o, w') => (f cmd o, w')
    end
|}.

(** Replace the outcomes recorded in a trace. *)
Definition remap (f : string -> Spawned -> Spawned) (e : event) : event :=
  match e with
  | EvRun c o => EvRun c (f c o)
  | _ => e
  end.

(** Other captured standard output, [g cmd out] in place of [out],
    where there is a text to replace. *)
Definition other_stdout (g : string -> string -> string)
  (cmd : string) (o : Spawned) : Spawned :=
  match o with
  | Completed res =>
      Completed (mkCompleted (returncode res) (g cmd (stdout res)) (stderr res))
  | _ => o
  end.

Definition with_stdout {World : Type} (g : string -> string -> string)
  (H : Host World) : Host World :=
  with_outcome (other_stdout g) H.

(** An outcome an onlooker of the output cannot tell from [o]: a
    completed process stays one, zero stays zero, non-zero stays
    non-zero, and the standard error of a failure is kept. *)
Definition muddle (_ : string) (o : Spawned) : Spawned :=
  match o with
  | Completed res =>
      if (returncode res =? 0)%Z
      then Completed (mkCompleted 0 "other output" "warnings on success")
      else Completed (mkCompleted (Z.abs (returncode res) + 1)
                        "partial output" (stderr res))
  | _ => o
  end.

(** A small concrete host: directories, paths that are not
    directories, files by absolute path, the command lines that exit
    with code 1, those whose output is not text, and whether the shell
    can be started. *)
Record ToyOS : Type := mkToyOS {
  toy_dirs : list string;
  toy_notdirs : list string;
  toy_cwd : string;
  toy_files : list string;
  toy_broken : list string;
  toy_garbled : list string;
  toy_shell : bool;
  toy_opened : list string
}.

Definition mem (s : string) (l : list string) : bool :=
  existsb (String.eqb s) l.

Definition toy_ran (cmd : string) (w : ToyOS) : ToyOS :=
  mkToyOS (toy_dirs w) (toy_notdirs w) (toy_cwd w) (toy_files w)
    (toy_broken w) (toy_garbled w) (toy_shell w) (toy_opened w ++ [cmd]).

#[local] Instance toy_host : Host ToyOS := {|
  host_chdir := fun d w =>
    if mem d (toy_dirs w)
    then Entered (mkToyOS (toy_dirs w) (toy_notdirs w) d (toy_files w)
                    (toy_broken w) (toy_garbled w) (toy_shell w)
                    (toy_opened w))
    else if mem d (toy_notdirs w) then Refused ENOTDIR
    else Refused ENOENT;
  host_exists := fun p w => mem (toy_cwd w ++ "/" ++ p)%string (toy_files w);
  host_abspath := fun p w => (toy_cwd w ++ "/" ++ p)%string;
  host_spawn := fun cmd w =>
    if negb (toy_shell w) then (NotStarted (StartOSError ENOENT), w)
    else if mem cmd (toy_garbled w) then (Garbled 1, toy_ran cmd w)
    else if mem cmd (toy_broken w)
    then (Completed (mkCompleted 1 "" ("execution error" ++ LF)), w)
    else (Completed (mkCompleted 0 "  opened  " ""), toy_ran cmd w)
|}.

Definition in_project (p : string) : string := project_dir ++ "/" ++ p.

(** The project directory exists; the first two listed files exist, the
    others do not; opening the second exits with code 1. *)
Definition sample_world : ToyOS := {|
  toy_dirs := [project_dir];
  toy_notdirs := [];
  toy_cwd := "/";
  toy_files := [in_project "PrestigeNative/Core/Models/APIEndpoints.swift";
               in_project "PrestigeNative/Core/Models/APIModels.swift"];
  toy_broken := [build_cmd (in_project "PrestigeNative/Core/Models/APIModels.swift")];
  toy_garbled := [];
  toy_shell := true;
  toy_opened := []
|}.

Definition enter (w : ToyOS) : ToyOS :=
  mkToyOS (toy_dirs w) (toy_notdirs w) project_dir (toy_files w)
    (toy_broken w) (toy_garbled w) (toy_shell w) (toy_opened w).

(** [sample_world] after the change of directory. *)
Definition sample_entered : ToyOS := enter sample_world.

(** [sample_world] with no failing command. *)
Definition calm_world : ToyOS := {|
  toy_dirs := toy_dirs sample_world;
  toy_notdirs := [];
  toy_cwd := toy_cwd sample_world;
  toy_files := toy_files sample_world;
  toy_broken := [];
  toy_garbled := [];
  toy_shell := true;
  toy_opened := []
|}.

(** [sample_world] where the output of the first command is not text
    (and its exit code is 1). *)
Definition garbled_world : ToyOS := {|
  toy_dirs := toy_dirs sample_world;
  toy_notdirs := [];
  toy_cwd := toy_cwd sample_world;
  toy_files := toy_files sample_world;
  toy_broken := toy_broken sample_world;
  toy_garbled := [build_cmd (in_project "PrestigeNative/Core/Models/APIEndpoints.swift")];
  toy_shell := true;
  toy_opened := []
|}.




(** ** The run, unfolded *)

Section RegistrarFacts.
Context {World : Type} {H : Host World}.

Lemma run_command_unfold (cmd : string) (w : World) :
  run_command cmd w =
  (match escapes (fst (host_spawn cmd w)) with
   | Some x => Raised x
   | None => Ok (run_value (fst (host_spawn cmd w)))
   end,
   snd (host_spawn cmd w),
   EvRun cmd (fst (host_spawn cmd w))
   :: handler_prints cmd (fst (host_spawn cmd w))).
Proof.
  unfold run_command, try_except_CalledProcessError, bind, subprocess_run,
    print, ret.
  destruct (host_spawn cmd w) as [[res | code | [e|]] w']; simpl;
    try reflexivity.
  destruct (returncode res =? 0)%Z; reflexivity.
Qed.

Lemma add_file_turn (p : string) (u : World) :
  add_file p u =
  (match turn_raises p u with
   | None => Ok tt
   | Some x => Raised x
   end, turn_world p u, turn_events p u).
Proof.
  unfold add_file, bind, os_path_exists, turn_raises, turn_world, turn_events.
  simpl. destruct (host_exists p u); [|reflexivity].
  unfold print, os_path_abspath; simpl.
  rewrite run_command_unfold.
  destruct (escapes _); simpl; rewrite ?app_nil_r; reflexivity.
Qed.

Lemma for_each_loop_run (l : list string) (w : World) :
  loop_run w l (result_of (for_each l add_file w))
    (world_of (for_each l add_file w)) (trace_of (for_each l add_file w)).
Proof.
  revert w; induction l as [|p l IH]; intro w; [apply lr_nil|].
  simpl. unfold bind. rewrite add_file_turn.
  destruct (turn_raises p w) as [x|] eqn:Hx.
  - now apply lr_abort.
  - specialize (IH (turn_world p w)).
    destruct (for_each l add_file (turn_world p w)) as [[r u'] t].
    now apply lr_step.
Qed.

Lemma main_run (w w1 : World) :
  host_chdir project_dir w = Entered w1 ->
  exists r u' t,
    loop_run w1 files_to_add r u' t
    /\ main w = (r, u', EvChdir project_dir true :: t ++ closing_events r).
Proof.
  intro Hc. pose proof (for_each_loop_run files_to_add w1) as Hl.
  unfold main, bind, os_chdir. rewrite Hc.
  destruct (for_each files_to_add add_file w1) as [[r u'] t].
  unfold result_of, world_of, trace_of in Hl; simpl in Hl.
  exists r, u', t. split; [exact Hl|].
  destruct r as [[]|x]; simpl; [reflexivity|].
  now rewrite app_nil_r.
Qed.

Lemma main_refused (w : World) (e : os_error) :
  host_chdir project_dir w = Refused e ->
  main w = (Raised (OSError e project_dir), w, [EvChdir project_dir false]).
Proof.
  intro Hc. unfold main, bind, os_chdir. rewrite Hc. reflexivity.
Qed.

End RegistrarFacts.

(** ** Facts about text *)

Lemma string_length_append (a b : string) :
  String.length (a ++ b) = String.length a + String.length b.
Proof. induction a as [|c a IH]; simpl; [reflexivity | now rewrite IH]. Qed.

Lemma string_append_assoc (a b c : string) :
  ((a ++ b) ++ c = a ++ (b ++ c))%string.
Proof. induction a as [|x a IH]; simpl; [reflexivity | now rewrite IH]. Qed.

Lemma string_append_cancel_r (a b s : string) :
  (a ++ s = b ++ s)%string -> a = b.
Proof.
  revert b; induction a as [|x a IH]; intros [|y b] E; simpl in E.
  - reflexivity.
  - apply (f_equal String.length) in E; simpl in E.
    rewrite string_length_append in E; lia.
  - apply (f_equal String.length) in E; simpl in E.
    rewrite string_length_append in E; lia.
  - injection E as -> E. f_equal. now apply IH.
Qed.

Lemma count_lf_append (a b : string) :
  count_lf (a ++ b) = count_lf a + count_lf b.
Proof.
  induction a as [|c a IH]; simpl; [reflexivity|]. rewrite IH. lia.
Qed.


Lemma closing_not_error : is_error_line closing_message = false.
Proof. reflexivity. Qed.


(** ** Facts about traces *)

Lemma exists_log_app (a b : list event) :
  exists_log (a ++ b) = exists_log a ++ exists_log b.
Proof.
  induction a as [|e a IH]; simpl; [reflexivity|].
  destruct e; simpl; now rewrite IH.
Qed.

Lemma abspath_log_app (a b : list event) :
  abspath_log (a ++ b) = abspath_log a ++ abspath_log b.
Proof.
  induction a as [|e a IH]; simpl; [reflexivity|].
  destruct e; simpl; now rewrite IH.
Qed.

Lemma runs_app (a b : list event) : runs (a ++ b) = runs a ++ runs b.
Proof.
  induction a as [|e a IH]; simpl; [reflexivity|].
  destruct e; simpl; now rewrite IH.
Qed.

Lemma commands_app (a b : list event) :
  commands (a ++ b) = commands a ++ commands b.
Proof. unfold commands. now rewrite runs_app, map_app. Qed.

Lemma printed_app (a b : list event) :
  printed (a ++ b) = printed a ++ printed b.
Proof.
  induction a as [|e a IH]; simpl; [reflexivity|].
  destruct e; simpl; now rewrite IH.
Qed.

Lemma written_app (a b : list event) :
  written (a ++ b) = (written a ++ written b)%string.
Proof.
  induction a as [|e a IH]; simpl; [reflexivity|].
  destruct e; simpl; rewrite ?IH; try reflexivity.
  now rewrite string_append_assoc.
Qed.

Lemma clean_run_app (a b : list event) :
  clean_run (a ++ b) = clean_run a && clean_run b.
Proof. unfold clean_run. now rewrite runs_app, forallb_app. Qed.

Lemma replay_app {World : Type} {H : Host World}
  (c1 c2 : list string) (w : World) :
  replay (c1 ++ c2) w = replay c2 (replay c1 w).
Proof. unfold replay. apply fold_left_app. Qed.

Create Rewrite HintDb logs.
#[local] Hint Rewrite exists_log_app abspath_log_app runs_app commands_app
  printed_app clean_run_app @map_app @filter_app @length_app : logs.

Lemma app_snoc_split {A : Type} (t pre post : list A) (x e : A) :
  t ++ [x] = pre ++ e :: post -> e <> x ->
  exists post', post = post' ++ [x] /\ t = pre ++ e :: post'.
Proof.
  intros E Hne. destruct (exists_last (l:=e :: post)) as (m & y & Em);
    [discriminate|].
  rewrite Em, app_assoc in E. apply app_inj_tail in E as [-> <-].
  destruct m as [|e' m]; simpl in Em.
  - destruct post; [|destruct post; discriminate Em].
    injection Em as ->. now contradiction Hne.
  - injection Em as <- ->. now exists m.
Qed.



Lemma length_filter_snd_log {A : Type} (l : list (A * bool)) (m : list (A * string)) :
  map fst m = map fst (filter snd l) -> length m = length (filter snd l).
Proof.
  intro E. apply (f_equal (@length A)) in E. now rewrite !length_map in E.
Qed.


Lemma In_firstn {A : Type} (n : nat) (l : list A) (x : A) :
  In x (firstn n l) -> In x l.
Proof.
  intro Hin. rewrite <- (firstn_skipn n l). apply in_or_app. now left.
Qed.

(** ** One turn *)

Section TurnFacts.
Context {World : Type} {H : Host World}.

Ltac peel a E :=
  repeat (destruct a as [|? a]; simpl in E;
          [try discriminate E; try (injection E as; subst)
          |try discriminate E; injection E as ? E; try discriminate]).

Ltac open_turn p u :=
  unfold turn_events, turn_world, turn_raises;
  destruct (host_exists p u) eqn:?;
  [ let o := fresh "o" in
    let w' := fresh "w'" in
    destruct (host_spawn (build_cmd (host_abspath p u)) u)
      as [o w'] eqn:?; cbn [fst snd];
    destruct o as [res | code | [e|]]; cbn [handler_prints escapes];
    [destruct (returncode res =? 0)%Z eqn:? | | | ]
  | ].

Lemma turn_exists_log (p : string) (u : World) :
  exists_log (turn_events p u) = [(p, host_exists p u)].
Proof. open_turn p u; reflexivity. Qed.

Lemma turn_abspath_log (p : string) (u : World) :
  abspath_log (turn_events p u)
  = if host_exists p u then [(p, host_abspath p u)] else [].
Proof. open_turn p u; reflexivity. Qed.

Lemma turn_commands (p : string) (u : World) :
  commands (turn_events p u)
  = if host_exists p u then [build_cmd (host_abspath p u)] else [].
Proof. open_turn p u; reflexivity. Qed.

Lemma turn_replay (p : string) (u : World) :
  replay (commands (turn_events p u)) u = turn_world p u.
Proof.
  rewrite turn_commands. unfold turn_world.
  destruct (host_exists p u); reflexivity.
Qed.

Lemma turn_clean (p : string) (u : World) :
  clean_run (turn_events p u)
  = match turn_raises p u with None => true | Some _ => false end.
Proof. open_turn p u; reflexivity. Qed.

Lemma turn_head (p : string) (u : World) :
  exists rest, turn_events p u = EvExists p (host_exists p u) :: rest.
Proof.
  unfold turn_events. destruct (host_exists p u); simpl; eexists; reflexivity.
Qed.

Lemma turn_last_run (p : string) (u : World) (x : exn) :
  turn_raises p u = Some x ->
  exists pre c o,
    turn_events p u = pre ++ [EvRun c o]
    /\ aborts o = true /\ escapes o = Some x /\ clean_run pre = true.
Proof.
  open_turn p u; intro E; try discriminate E;
    (eexists [_; _; _], _, _; split; [reflexivity|];
     repeat split; try reflexivity; exact E).
Qed.

Lemma turn_check_inv (p q : string) (u : World) (ans : bool)
  (a b : list event) :
  turn_events p u = a ++ EvExists q ans :: b ->
  a = [] /\ q = p /\ ans = host_exists p u
  /\ b = if host_exists p u
         then EvPrint (adding_line p)
              :: EvAbspath p (host_abspath p u)
              :: EvRun (build_cmd (host_abspath p u))
                   (fst (host_spawn (build_cmd (host_abspath p u)) u))
              :: handler_prints (build_cmd (host_abspath p u))
                   (fst (host_spawn (build_cmd (host_abspath p u)) u))
         else [EvPrint (warning_line p)].
Proof.
  open_turn p u; intro E; peel a E; auto.
Qed.

Lemma turn_run_inv (p c : string) (u : World) (o : Spawned)
  (a b : list event) :
  turn_events p u = a ++ EvRun c o :: b ->
  host_exists p u = true
  /\ a = [EvExists p true; EvPrint (adding_line p);
          EvAbspath p (host_abspath p u)]
  /\ c = build_cmd (host_abspath p u)
  /\ o = fst (host_spawn c u)
  /\ b = handler_prints c o.
Proof.
  open_turn p u; intro E; peel a E;
    match goal with
    | Hs : host_spawn _ _ = _ |- _ => rewrite Hs
    end; cbn [fst handler_prints];
    try match goal with
        | Hz : (returncode _ =? 0)%Z = _ |- _ => rewrite Hz
        end;
    auto 10.
Qed.

End TurnFacts.

(** ** The loop *)

Section LoopFacts.
Context {World : Type} {H : Host World}.

Lemma lr_world (u u' : World) (l : list string) (r : Result unit)
  (t : list event) :
  loop_run u l r u' t -> u' = replay (commands t) u.
Proof.
  induction 1 as [u | u p l r u' t Hx Hl IH | u p l x Hx].
  - reflexivity.
  - now rewrite commands_app, replay_app, turn_replay.
  - now rewrite turn_replay.
Qed.

Lemma lr_checked (u u' : World) (l : list string) (r : Result unit)
  (t : list event) :
  loop_run u l r u' t ->
  (exists n, map fst (exists_log t) = firstn n l)
  /\ (r = Ok tt -> map fst (exists_log t) = l).
Proof.
  induction 1 as [u | u p l r u' t Hx Hl [[n IHn] IHok] | u p l x Hx].
  - split; [now exists 0|reflexivity].
  - rewrite exists_log_app, turn_exists_log. cbn [app map fst].
    split; [exists (S n); now rewrite IHn|].
    intro Hr. now rewrite (IHok Hr).
  - rewrite turn_exists_log. split; [now exists 1|discriminate].
Qed.

(** The loop ends well exactly when no command put an end to it; it
    ends badly on the command that did, with what that command lets
    out. *)
Lemma lr_result (u u' : World) (l : list string) (r : Result unit)
  (t : list event) :
  loop_run u l r u' t ->
  (r = Ok tt /\ clean_run t = true)
  \/ (exists x pre c o,
        r = Raised x /\ t = pre ++ [EvRun c o]
        /\ aborts o = true /\ escapes o = Some x
        /\ clean_run pre = true /\ clean_run t = false).
Proof.
  induction 1 as [u | u p l r u' t Hx Hl IH | u p l x Hx].
  - now left.
  - assert (Hc : clean_run (turn_events p u) = true)
      by (rewrite turn_clean, Hx; reflexivity).
    destruct IH as [[-> Ht]|(x & pre & c & o & -> & -> & Ha & He & Hp & Hf)].
    + left. split; [reflexivity|]. now rewrite clean_run_app, Hc, Ht.
    + right. exists x, (turn_events p u ++ pre), c, o.
      split; [reflexivity|]. split; [now rewrite app_assoc|].
      split; [exact Ha|]. split; [exact He|].
      split; [now rewrite clean_run_app, Hc, Hp|].
      now rewrite clean_run_app, Hc, Hf.
  - right. destruct (turn_last_run p u x Hx) as (pre & c & o & E & Ha & He & Hp).
    exists x, pre, c, o. repeat split; auto.
    now rewrite turn_clean, Hx.
Qed.

Lemma lr_lists (u u' : World) (l : list string) (r : Result unit)
  (t : list event) :
  loop_run u l r u' t ->
  map fst (abspath_log t) = map fst (filter snd (exists_log t))
  /\ commands t = map build_cmd (map snd (abspath_log t)).
Proof.
  assert (Ht : forall p v,
    map fst (abspath_log (turn_events p v))
    = map fst (filter snd (exists_log (turn_events p v)))
    /\ commands (turn_events p v)
       = map build_cmd (map snd (abspath_log (turn_events p v)))).
  { intros p v.
    rewrite turn_exists_log, turn_abspath_log, turn_commands.
    destruct (host_exists p v); now split. }
  induction 1 as [u | u p l r u' t Hx Hl [IH1 IH2] | u p l x Hx].
  - now split.
  - destruct (Ht p u) as [E1 E2].
    autorewrite with logs. now rewrite IH1, IH2, E1, E2.
  - apply Ht.
Qed.

Lemma lr_entry_done (u u' : World) (l : list string) (r : Result unit)
  (t : list event) :
  loop_run u l r u' t -> entry_done (t ++ closing_events r).
Proof.
  intros [v | v p l' r' v' t' Hx Hl | v p l' x Hx].
  - reflexivity.
  - destruct (turn_head p v) as [rest ->]. exact I.
  - destruct (turn_head p v) as [rest ->]. exact I.
Qed.

(** Every event of the loop lies in the turn of one entry, reached in
    the world the commands before it have left; the entries before it
    were checked, and none of their commands put an end to the run. *)
Lemma lr_locate (u u' : World) (l : list string) (r : Result unit)
  (t : list event) :
  loop_run u l r u' t ->
  forall pre e post, t = pre ++ e :: post ->
  exists l1 p l2 t1 a b t2,
    l = l1 ++ p :: l2
    /\ map fst (exists_log t1) = l1
    /\ clean_run t1 = true
    /\ pre = t1 ++ a /\ post = b ++ t2
    /\ turn_events p (replay (commands t1) u) = a ++ e :: b
    /\ match turn_raises p (replay (commands t1) u) with
       | None => loop_run (turn_world p (replay (commands t1) u)) l2 r u' t2
       | Some x => t2 = [] /\ r = Raised x
       end.
Proof.
  induction 1 as [u | u p l r u' t Hx Hl IH | u p l x Hx];
    intros pre e post E.
  - destruct pre; discriminate E.
  - assert (Hc : clean_run (turn_events p u) = true)
      by (rewrite turn_clean, Hx; reflexivity).
    apply app_eq_app in E. destruct E as [m [[E1 E2]|[E1 E2]]].
    + destruct m as [|e' m].
      * simpl in E2. rewrite app_nil_r in E1.
        destruct (IH [] e post (eq_sym E2))
          as (l1 & q & l2 & t1 & a & b & t2
              & -> & Hl1 & Hc1 & Ea & -> & Et & Hk).
        exists (p :: l1), q, l2, (turn_events p u ++ t1), a, b, t2.
        rewrite commands_app, replay_app, turn_replay.
        rewrite exists_log_app, turn_exists_log, clean_run_app, Hc, Hc1.
        cbn [app map fst]. rewrite Hl1.
        repeat split; auto.
        rewrite <- app_assoc, <- Ea, app_nil_r. now symmetry.
      * injection E2 as -> ->.
        exists [], p, l, [], pre, m, t. cbn [commands runs map replay fold_left].
        rewrite Hx. repeat split; auto.
    + destruct (IH m e post E2)
        as (l1 & q & l2 & t1 & a & b & t2
            & -> & Hl1 & Hc1 & -> & -> & Et & Hk).
      exists (p :: l1), q, l2, (turn_events p u ++ t1), a, b, t2.
      rewrite commands_app, replay_app, turn_replay.
      rewrite exists_log_app, turn_exists_log, clean_run_app, Hc, Hc1.
      cbn [app map fst]. rewrite Hl1. subst pre.
      repeat split; auto. now rewrite app_assoc.
  - exists [], p, l, [], pre, post, [].
    cbn [commands runs map replay fold_left]. rewrite Hx, app_nil_r.
    repeat split; auto.
Qed.

Lemma lr_fs_world {F : Type} (fs : World -> F) (u u' : World)
  (l : list string) (r : Result unit) (t : list event) :
  (forall cmd v, fs (snd (host_spawn cmd v)) = fs v) ->
  loop_run u l r u' t -> fs u' = fs u.
Proof.
  intro Hs.
  assert (Ht : forall p v, fs (turn_world p v) = fs v).
  { intros p v. unfold turn_world. destruct (host_exists p v); auto. }
  induction 1 as [u | u p l r u' t Hx Hl IH | u p l x Hx]; auto.
  now rewrite IH.
Qed.

Lemma lr_fs_access (u u' : World) (l : list string) (r : Result unit)
  (t : list event) :
  loop_run u l r u' t -> incl l files_to_add -> Forall fs_access_allowed t.
Proof.
  assert (Ht : forall p v, In p files_to_add ->
            Forall fs_access_allowed (turn_events p v)).
  { intros p v Hp. unfold turn_events.
    destruct (host_exists p v).
    - repeat (apply Forall_cons; [first [exact Hp | exact I]|]).
      unfold handler_prints.
      destruct (fst (host_spawn _ v)) as [res| |];
        [destruct (returncode res =? 0)%Z|..];
        repeat (apply Forall_cons; [exact I|]); apply Forall_nil.
    - repeat (apply Forall_cons; [first [exact Hp | exact I]|]).
      apply Forall_nil. }
  induction 1 as [u | u p l r u' t Hx Hl IH | u p l x Hx]; intro Hincl.
  - constructor.
  - apply Forall_app; split.
    + apply Ht. apply Hincl; now left.
    + apply IH. intros q Hq; apply Hincl; now right.
  - apply Ht. apply Hincl; now left.
Qed.





End LoopFacts.

(** ** The whole run *)

Lemma escapes_aborts (o : Spawned) :
  (escapes o = None <-> aborts o = false)
  /\ (aborts o = true -> exists x, escapes o = Some x).
Proof.
  destruct o as [res | code | [e|]]; simpl; split;
    try (split; congruence); intro E; try discriminate E; eauto.
Qed.

Lemma runs_in (t : list event) (c : string) (o : Spawned) :
  In (c, o) (runs t) -> exists pre post, t = pre ++ EvRun c o :: post.
Proof.
  induction t as [|e t IH]; [intros []|].
  destruct e as [d b | p a | p a | s | c' o']; simpl; intro Hin;
    try (destruct (IH Hin) as (pre & post & ->);
         eexists (_ :: pre), post; reflexivity).
  destruct Hin as [E|Hin].
  - injection E as -> ->. now exists [], t.
  - destruct (IH Hin) as (pre & post & ->).
    eexists (_ :: pre), post; reflexivity.
Qed.

Lemma exists_log_in (t : list event) (p : string) (a : bool) :
  In (p, a) (exists_log t) -> exists pre post, t = pre ++ EvExists p a :: post.
Proof.
  induction t as [|e t IH]; [intros []|].
  destruct e as [d b | p' a' | p' a' | s | c' o']; simpl; intro Hin;
    try (destruct (IH Hin) as (pre & post & ->);
         eexists (_ :: pre), post; reflexivity).
  destruct Hin as [E|Hin].
  - injection E as -> ->. now exists [], t.
  - destruct (IH Hin) as (pre & post & ->).
    eexists (_ :: pre), post; reflexivity.
Qed.

Section MainFacts.
Context {World : Type} {H : Host World}.

(** The logs of a run that got past [os.chdir], from those of its
    loop. *)
Lemma main_logs (w w1 : World) :
  host_chdir project_dir w = Entered w1 ->
  exists r u' t,
    loop_run w1 files_to_add r u' t
    /\ main w = (r, u', EvChdir project_dir true :: t ++ closing_events r)
    /\ result_of (main w) = r
    /\ world_of (main w) = u'
    /\ trace_of (main w)
       = EvChdir project_dir true :: t ++ closing_events r
    /\ exists_log (trace_of (main w)) = exists_log t
    /\ abspath_log (trace_of (main w)) = abspath_log t
    /\ runs (trace_of (main w)) = runs t
    /\ printed (trace_of (main w)) = printed t ++ printed (closing_events r).
Proof.
  intro Hc. destruct (main_run w w1 Hc) as (r & u' & t & Hl & E).
  exists r, u', t. rewrite E.
  unfold result_of, world_of, trace_of; cbn [fst snd].
  cbn [exists_log abspath_log runs printed].
  rewrite exists_log_app, abspath_log_app, runs_app, printed_app.
  assert (Hce : exists_log (closing_events r) = []
                /\ abspath_log (closing_events r) = []
                /\ runs (closing_events r) = [])
    by (destruct r; repeat split).
  destruct Hce as (-> & -> & ->). rewrite !app_nil_r. auto 10.
Qed.

(** Every event of a run, apart from the change of directory and the
    closing message, lies in the turn of one list entry. *)
Lemma main_locate (w w1 : World) (pre post : list event) (e : event) :
  host_chdir project_dir w = Entered w1 ->
  trace_of (main w) = pre ++ e :: post ->
  e <> EvChdir project_dir true ->
  e <> EvPrint closing_message ->
  exists l1 p l2 t1 a b rest,
    files_to_add = l1 ++ p :: l2
    /\ map fst (exists_log t1) = l1
    /\ clean_run t1 = true
    /\ pre = EvChdir project_dir true :: t1 ++ a
    /\ post = b ++ rest
    /\ turn_events p (replay (commands t1) w1) = a ++ e :: b
    /\ match turn_raises p (replay (commands t1) w1) with
       | None => entry_done rest
       | Some x => rest = [] /\ result_of (main w) = Raised x
       end.
Proof.
  intros Hc E Hn1 Hn2.
  destruct (main_logs w w1 Hc) as (r & u' & t & Hl & _ & Er & _ & Et & _).
  rewrite Et in E. destruct pre as [|x pre]; simpl in E.
  - injection E as E _. now contradiction Hn1.
  - injection E as <- E.
    assert (E' : exists post', post = post' ++ closing_events r
                               /\ t = pre ++ e :: post').
    { destruct r as [[]|x]; simpl in E |- *.
      - now apply app_snoc_split in E.
      - rewrite app_nil_r in E. exists post. now rewrite app_nil_r. }
    destruct E' as (post' & -> & E').
    destruct (lr_locate _ _ _ _ _ Hl _ _ _ E')
      as (l1 & p & l2 & t1 & a & b & t2 & El & Hl1 & Hc1 & -> & -> & Ht & Hk).
    exists l1, p, l2, t1, a, b, (t2 ++ closing_events r).
    rewrite <- app_assoc. repeat split; auto.
    destruct (turn_raises p (replay (commands t1) w1)) as [x|].
    + destruct Hk as [-> ->]. rewrite Er. now split.
    + now apply lr_entry_done in Hk.
Qed.

(** A check found in the trace: the answer is the host's, in the world
    the commands before it have left, and the rest of its turn
    follows. *)
Lemma main_check (w w1 : World) (pre post : list event)
  (p : string) (a : bool) :
  host_chdir project_dir w = Entered w1 ->
  trace_of (main w) = pre ++ EvExists p a :: post ->
  a = host_exists p (replay (commands pre) w1)
  /\ In p files_to_add
  /\ clean_run pre = true
  /\ exists rest,
       post = (if a
               then EvPrint (adding_line p)
                    :: EvAbspath p (host_abspath p (replay (commands pre) w1))
                    :: EvRun (build_cmd (host_abspath p (replay (commands pre) w1)))
                         (fst (host_spawn
                                 (build_cmd (host_abspath p (replay (commands pre) w1)))
                                 (replay (commands pre) w1)))
                    :: handler_prints
                         (build_cmd (host_abspath p (replay (commands pre) w1)))
                         (fst (host_spawn
                                 (build_cmd (host_abspath p (replay (commands pre) w1)))
                                 (replay (commands pre) w1)))
               else [EvPrint (warning_line p)]) ++ rest
       /\ (a = false -> entry_done rest).
Proof.
  intros Hc E.
  destruct (main_locate w w1 pre post _ Hc E)
    as (l1 & q & l2 & t1 & a0 & b & rest & El & _ & Hc1 & -> & -> & Ht & Hk);
    [discriminate | discriminate |].
  apply turn_check_inv in Ht as (-> & -> & -> & ->).
  rewrite app_nil_r.
  change (commands (EvChdir project_dir true :: t1)) with (commands t1).
  set (u := replay (commands t1) w1) in *.
  split; [reflexivity|]. split; [rewrite El; apply in_or_app; right; now left|].
  split; [exact Hc1|].
  exists rest. split; [reflexivity|].
  intro Ha. unfold turn_raises in Hk. rewrite Ha in Hk. exact Hk.
Qed.

(** A command found in the trace: it is the command of a listed path
    just checked and answered yes, its outcome is the host's, and the
    handler's prints, if any, follow. *)
Lemma main_command (w w1 : World) (pre post : list event)
  (c : string) (o : Spawned) :
  host_chdir project_dir w = Entered w1 ->
  trace_of (main w) = pre ++ EvRun c o :: post ->
  exists pre' p,
    pre = pre' ++ [EvExists p true; EvPrint (adding_line p);
                   EvAbspath p (host_abspath p (replay (commands pre) w1))]
    /\ In p files_to_add
    /\ host_exists p (replay (commands pre) w1) = true
    /\ c = build_cmd (host_abspath p (replay (commands pre) w1))
    /\ o = fst (host_spawn c (replay (commands pre) w1))
    /\ clean_run pre = true
    /\ exists rest,
         post = handler_prints c o ++ rest
         /\ match escapes o with
            | None => entry_done rest
            | Some x => rest = [] /\ result_of (main w) = Raised x
            end.
Proof.
  intros Hc E.
  destruct (main_locate w w1 pre post _ Hc E)
    as (l1 & q & l2 & t1 & a0 & b & rest & El & _ & Hc1 & -> & -> & Ht & Hk);
    [discriminate | discriminate |].
  apply turn_run_inv in Ht as (Hex & -> & -> & -> & ->).
  assert (Ecmd : commands (EvChdir project_dir true
                           :: t1 ++ [EvExists q true; EvPrint (adding_line q);
                                     EvAbspath q (host_abspath q
                                                    (replay (commands t1) w1))])
                 = commands t1).
  { change (commands (EvChdir project_dir true :: ?x)) with (commands x).
    rewrite commands_app. cbn. now rewrite app_nil_r. }
  rewrite Ecmd. set (u := replay (commands t1) w1) in *.
  exists (EvChdir project_dir true :: t1), q.
  split; [reflexivity|].
  split; [rewrite El; apply in_or_app; right; now left|].
  split; [exact Hex|]. split; [reflexivity|]. split; [reflexivity|].
  split.
  { change (clean_run (EvChdir project_dir true :: ?x)) with (clean_run x).
    rewrite clean_run_app, Hc1. reflexivity. }
  exists rest. split; [reflexivity|].
  unfold turn_raises in Hk. rewrite Hex in Hk. exact Hk.
Qed.

End MainFacts.

Section MainOutcome.
Context {World : Type} {H : Host World}.

(** How far a run past [os.chdir] gets: the checks are the listed
    paths from the first on; all of them, and a normal return, when no
    command put an end to the run; else the run ends with the command
    that did, and with the exception that command lets out. *)
Lemma main_checked (w w1 : World) :
  host_chdir project_dir w = Entered w1 ->
  (exists n, map fst (exists_log (trace_of (main w))) = firstn n files_to_add)
  /\ (clean_run (trace_of (main w)) = true ->
      map fst (exists_log (trace_of (main w))) = files_to_add
      /\ result_of (main w) = Ok tt
      /\ exists t, trace_of (main w) = t ++ [EvPrint closing_message])
  /\ (clean_run (trace_of (main w)) = false ->
      exists x pre c o,
        result_of (main w) = Raised x
        /\ trace_of (main w) = pre ++ [EvRun c o]
        /\ aborts o = true /\ escapes o = Some x).
Proof.
  intro Hc.
  destruct (main_logs w w1 Hc)
    as (r & u' & t & Hl & _ & Er & _ & Et & Ee & _ & Ern & _).
  assert (Ecl : clean_run (trace_of (main w)) = clean_run t)
    by (unfold clean_run; now rewrite Ern).
  rewrite Ecl, Ee, Er, Et.
  destruct (lr_checked _ _ _ _ _ Hl) as [Hn Hok].
  split; [exact Hn|].
  destruct (lr_result _ _ _ _ _ Hl)
    as [[-> Ht]|(x & pre & c & o & -> & -> & Ha & He & Hp & Hf)].
  - split; [|congruence]. intros _. split; [now apply Hok|].
    split; [reflexivity|].
    exists (EvChdir project_dir true :: t). reflexivity.
  - split; [congruence|]. intros _.
    exists x, (EvChdir project_dir true :: pre), c, o.
    cbn [closing_events]. rewrite app_nil_r. auto.
Qed.

Lemma main_clean_host (w w1 : World) :
  host_chdir project_dir w = Entered w1 ->
  (forall c u, aborts (fst (host_spawn c u)) = false) ->
  clean_run (trace_of (main w)) = true.
Proof.
  intros Hc Hh. unfold clean_run. apply forallb_forall. intros [c o] Hin.
  apply runs_in in Hin as (pre & post & E).
  destruct (main_command w w1 pre post c o Hc E)
    as (_ & _ & _ & _ & _ & _ & -> & _).
  cbn [snd]. now rewrite Hh.
Qed.

Lemma main_lists (w w1 : World) :
  host_chdir project_dir w = Entered w1 ->
  map fst (abspath_log (trace_of (main w)))
  = map fst (filter snd (exists_log (trace_of (main w))))
  /\ commands (trace_of (main w))
     = map build_cmd (map snd (abspath_log (trace_of (main w))))
  /\ length (commands (trace_of (main w)))
     = length (filter snd (exists_log (trace_of (main w)))).
Proof.
  intro Hc.
  destruct (main_logs w w1 Hc)
    as (r & u' & t & Hl & _ & _ & _ & _ & Ee & Ea & Ern & _).
  unfold commands. rewrite Ee, Ea, Ern. fold (commands t).
  destruct (lr_lists _ _ _ _ _ Hl) as [E1 E2].
  split; [exact E1|]. split; [exact E2|].
  rewrite E2, !length_map. now apply length_filter_snd_log.
Qed.

End MainOutcome.

(** ** Properties of a run *)




(** C2.  On a run that gets past the change of directory, every command
    found in the trace has the outcome the host gives it in the world
    as the commands before it have left it.  If the process completed
    with text output and a code other than zero, the events that follow
    are exactly the two print calls of the handler, the first with the
    command text and the second with the captured standard error, and
    then the check of the next path or the closing message; written
    out they take two lines plus one for each line feed held in the
    command or in the standard error.  If it completed with code zero
    the next entry follows at once.  If it could not be started or its
    output is not text, nothing is printed for it and the run ends
    there with the exception it lets out.  Every listed path is
    checked when no command ends the run, each check has the host's
    answer, and the number of commands attempted equals the number of
    checks answered yes. *)
Theorem failing_command_reported_run_continues
  {World : Type} {H : Host World} (w w1 : World) :
  host_chdir project_dir w = Entered w1 ->
  (forall pre cmd o post,
     trace_of (main w) = pre ++ EvRun cmd o :: post ->
     o = fst (host_spawn cmd (replay (commands pre) w1))
     /\ match o with
        | Completed res =>
            if (returncode res =? 0)%Z then entry_done post
            else
              exists rest,
                post = EvPrint ("Error running command: " ++ cmd)
                       :: EvPrint ("Error: " ++ stderr res) :: rest
                /\ entry_done rest
                /\ count_lf (written [EvPrint ("Error running command: " ++ cmd);
                                      EvPrint ("Error: " ++ stderr res)])
                   = 2 + count_lf cmd + count_lf (stderr res)
        | _ =>
            post = []
            /\ exists x, escapes o = Some x /\ result_of (main w) = Raised x
        end)
  /\ (clean_run (trace_of (main w)) = true ->
      map fst (exists_log (trace_of (main w))) = files_to_add)
  /\ (forall pre p a post,
        trace_of (main w) = pre ++ EvExists p a :: post ->
        a = host_exists p (replay (commands pre) w1))
  /\ length (commands (trace_of (main w)))
     = length (filter snd (exists_log (trace_of (main w)))).
Proof.
  intro Hc. split; [|split; [|split]].
  - intros pre cmd o post E.
    destruct (main_command w w1 pre post cmd o Hc E)
      as (pre' & p & _ & _ & _ & _ & Ho & _ & rest & Ep & Hk).
    split; [exact Ho|]. clear Ho.
    destruct o as [res | code | e]; cbn [handler_prints escapes] in *.
    + destruct (returncode res =? 0)%Z.
      * now rewrite Ep.
      * exists rest. rewrite Ep. split; [reflexivity|]. split; [exact Hk|].
        cbn [written]. rewrite !count_lf_append. simpl. lia.
    + destruct Hk as [-> Hr]. rewrite Ep. split; [reflexivity|]. eauto.
    + destruct e as [e|]; cbn in Hk; destruct Hk as [-> Hr]; rewrite Ep;
        (split; [reflexivity|]);
        (eexists; split; [reflexivity | exact Hr]).
  - intro Hcl. now apply (main_checked w w1 Hc).
  - intros pre p a post E. now apply (main_check w w1 pre post p a Hc E).
  - now apply (main_lists w w1 Hc).
Qed.

Lemma failing_command_reported_run_continues_witness :
  host_chdir project_dir sample_world = Entered sample_entered
  /\ exists rest,
       skipn 9 (trace_of (main sample_world))
       = EvPrint ("Error running command: "
                  ++ build_cmd (in_project "PrestigeNative/Core/Models/APIModels.swift"))
         :: EvPrint ("Error: " ++ "execution error" ++ LF) :: rest
       /\ entry_done rest.
Proof.
  assert (Hc : host_chdir project_dir sample_world = Entered sample_entered)
    by reflexivity.
  split; [exact Hc|].
  assert (E : trace_of (main sample_world)
              = firstn 8 (trace_of (main sample_world))
                ++ EvRun (build_cmd (in_project "PrestigeNative/Core/Models/APIModels.swift"))
                     (Completed (mkCompleted 1 "" ("execution error" ++ LF)))
                   :: skipn 9 (trace_of (main sample_world)))
    by reflexivity.
  destruct (proj2 (proj1 (failing_command_reported_run_continues
                            sample_world sample_entered Hc)
                     _ _ _ _ E))
    as (rest & Ep & Hd & _).
  exists rest. split; [exact Ep | exact Hd].
Defined.

Lemma garbled_failure_is_not_reported :
  host_chdir project_dir garbled_world = Entered (enter garbled_world)
  /\ runs (trace_of (main garbled_world))
     = [(build_cmd (in_project "PrestigeNative/Core/Models/APIEndpoints.swift"),
         Garbled 1)]
  /\ printed (trace_of (main garbled_world))
     = [adding_line "PrestigeNative/Core/Models/APIEndpoints.swift"]
  /\ result_of (main garbled_world) = Raised UnicodeDecodeError
  /\ map fst (exists_log (trace_of (main garbled_world)))
     = ["PrestigeNative/Core/Models/APIEndpoints.swift"]
  /\ length (commands (trace_of (main garbled_world))) = 1
  /\ length (filter (fun p => host_exists p (world_of (main garbled_world)))
               files_to_add) = 2.
Proof. repeat split. Qed.






(** A run that a command put an end to: the command is the last event
    of the trace, and its outcome is the one the host gives in the
    world the earlier commands have left. *)
Lemma main_abort_cause {World : Type} {H : Host World} (w w1 : World) :
  host_chdir project_dir w = Entered w1 ->
  clean_run (trace_of (main w)) = false ->
  exists pre c,
    trace_of (main w)
    = pre ++ [EvRun c (fst (host_spawn c (replay (commands pre) w1)))]
    /\ aborts (fst (host_spawn c (replay (commands pre) w1))) = true
    /\ exists x,
         escapes (fst (host_spawn c (replay (commands pre) w1))) = Some x
         /\ result_of (main w) = Raised x.
Proof.
  intros Hc Hcl.
  destruct (main_checked w w1 Hc) as (_ & _ & Hbad).
  destruct (Hbad Hcl) as (x & pre & c & o & Hr & E & Ha & He).
  destruct (main_command w w1 pre [] c o Hc E)
    as (_ & _ & _ & _ & _ & _ & Ho & _).
  exists pre, c. rewrite <- Ho. eauto 10.
Qed.

Lemma turn_printed_closing {World : Type} {H : Host World}
  (p : string) (v : World) :
  ~ In closing_message (printed (turn_events p v)).
Proof.
  unfold turn_events. destruct (host_exists p v).
  - unfold handler_prints.
    destruct (fst (host_spawn _ v)) as [res| |];
      [destruct (returncode res =? 0)%Z|..]; simpl; intro Hin;
      repeat (destruct Hin as [Hin|Hin]; [discriminate Hin|]);
      destruct Hin.
  - simpl. intros [E|[]]. discriminate E.
Qed.

Lemma lr_closing_absent {World : Type} {H : Host World}
  (u u' : World) (l : list string) (r : Result unit) (t : list event) :
  loop_run u l r u' t -> ~ In closing_message (printed t).
Proof.
  induction 1 as [u | u p l r u' t Hx Hl IH | u p l x Hx].
  - intros [].
  - rewrite printed_app, in_app_iff. intros [Hin|Hin]; [|now apply IH].
    now apply turn_printed_closing in Hin.
  - apply turn_printed_closing.
Qed.

(** C5.  On a run that gets past the change of directory and that no
    command puts an end to, whatever the number of missing files and of
    commands with a code other than zero, the closing message is the
    last event of the trace and the last print call, and it is printed
    exactly once.  No command puts an end to the run when the host
    starts every command and hands back text.  When a command does put
    an end to the run, the closing message is not printed at all. *)
Theorem closing_message_printed_once_at_end
  {World : Type} {H : Host World} (w w1 : World) :
  host_chdir project_dir w = Entered w1 ->
  (clean_run (trace_of (main w)) = true ->
   (exists t, trace_of (main w) = t ++ [EvPrint closing_message]
              /\ written (trace_of (main w))
                 = (written t ++ closing_message ++ LF)%string)
   /\ (exists body, printed (trace_of (main w)) = body ++ [closing_message]
                    /\ ~ In closing_message body)
   /\ count_occ string_dec (printed (trace_of (main w))) closing_message = 1)
  /\ (clean_run (trace_of (main w)) = false ->
      ~ In closing_message (printed (trace_of (main w)))
      /\ exists pre c,
           trace_of (main w)
           = pre ++ [EvRun c (fst (host_spawn c (replay (commands pre) w1)))]
           /\ aborts (fst (host_spawn c (replay (commands pre) w1))) = true)
  /\ ((forall c u, aborts (fst (host_spawn c u)) = false) ->
      clean_run (trace_of (main w)) = true).
Proof.
  intro Hc.
  destruct (main_checked w w1 Hc) as (_ & Hok & Hbad).
  destruct (main_logs w w1 Hc)
    as (r & u' & t & Hl & _ & Er & _ & Et & _ & _ & _ & Ep).
  pose proof (lr_closing_absent _ _ _ _ _ Hl) as Hn.
  split; [|split].
  - intro Hcl. destruct (Hok Hcl) as (_ & Hr & Hlast).
    rewrite Er in Hr. rewrite Hr in Ep. cbn [closing_events printed] in Ep.
    split.
    { destruct Hlast as [t0 E0]. exists t0. split; [exact E0|].
      rewrite E0, written_app. reflexivity. }
    split.
    + exists (printed t). now split.
    + rewrite Ep, count_occ_app, count_occ_cons_eq by reflexivity.
      apply (count_occ_not_In string_dec) in Hn. now rewrite Hn.
  - intro Hcl. destruct (Hbad Hcl) as (x & _ & _ & _ & Hr & _).
    split.
    + rewrite Er in Hr. rewrite Hr in Ep.
      cbn [closing_events printed] in Ep. now rewrite Ep, app_nil_r.
    + destruct (main_abort_cause w w1 Hc Hcl) as (pre & c & E & Ha & _).
      eauto.
  - now apply (main_clean_host w w1).
Qed.

Lemma closing_message_printed_once_at_end_witness :
  host_chdir project_dir sample_world = Entered sample_entered
  /\ clean_run (trace_of (main sample_world)) = true
  /\ count_occ string_dec (printed (trace_of (main sample_world)))
       closing_message = 1.
Proof.
  assert (Hc : host_chdir project_dir sample_world = Entered sample_entered)
    by reflexivity.
  split; [exact Hc|]. split; [reflexivity|].
  apply (proj1 (closing_message_printed_once_at_end
                  sample_world sample_entered Hc)).
  reflexivity.
Defined.

Lemma closing_message_missing_after_abort :
  host_chdir project_dir garbled_world = Entered (enter garbled_world)
  /\ ~ In closing_message (printed (trace_of (main garbled_world)))
  /\ written (trace_of (main garbled_world))
     = (adding_line "PrestigeNative/Core/Models/APIEndpoints.swift" ++ LF)%string.
Proof.
  split; [reflexivity|]. split; [|reflexivity].
  intros [E|[]]. vm_compute in E. discriminate E.
Qed.

(** C6.  Once the change of directory has succeeded, [main] returns
    normally and the process exits with status 0 whenever no command
    puts an end to the run, whatever the existence checks answer and
    whatever codes the commands return; that is so on every host that
    starts every command and hands back text.  When a command cannot
    be started or its output is not text, the exception reaches the top
    level and the exit status is 1. *)
Theorem per_file_failures_exit_zero
  {World : Type} {H : Host World} (w w1 : World) :
  host_chdir project_dir w = Entered w1 ->
  (clean_run (trace_of (main w)) = true ->
   result_of (main w) = Ok tt /\ fst (fst (script w)) = 0%Z)
  /\ (clean_run (trace_of (main w)) = false ->
      fst (fst (script w)) = 1%Z
      /\ exists pre c,
           trace_of (main w)
           = pre ++ [EvRun c (fst (host_spawn c (replay (commands pre) w1)))]
           /\ aborts (fst (host_spawn c (replay (commands pre) w1))) = true)
  /\ ((forall c u, aborts (fst (host_spawn c u)) = false) ->
      fst (fst (script w)) = 0%Z).
Proof.
  intro Hc.
  destruct (main_checked w w1 Hc) as (_ & Hok & Hbad).
  assert (Hgood : clean_run (trace_of (main w)) = true ->
                  result_of (main w) = Ok tt /\ fst (fst (script w)) = 0%Z).
  { intro Hcl. destruct (Hok Hcl) as (_ & Hr & _). split; [exact Hr|].
    unfold script. destruct (main w) as [[r u] t].
    unfold result_of in Hr; simpl in Hr. now subst r. }
  split; [exact Hgood|]. split.
  - intro Hcl. split.
    + destruct (Hbad Hcl) as (x & _ & _ & _ & Hr & _).
      unfold script. destruct (main w) as [[r u] t].
      unfold result_of in Hr; simpl in Hr. now subst r.
    + destruct (main_abort_cause w w1 Hc Hcl) as (pre & c & E & Ha & _).
      eauto.
  - intro Hh. apply Hgood. now apply (main_clean_host w w1).
Qed.

Lemma per_file_failures_exit_zero_witness :
  host_chdir project_dir sample_world = Entered sample_entered
  /\ length (filter (fun r => failed (snd r))
               (runs (trace_of (main sample_world)))) = 1
  /\ fst (fst (script sample_world)) = 0%Z.
Proof.
  assert (Hc : host_chdir project_dir sample_world = Entered sample_entered)
    by reflexivity.
  split; [exact Hc|]. split; [reflexivity|].
  apply (proj1 (per_file_failures_exit_zero sample_world sample_entered Hc)).
  reflexivity.
Defined.

Lemma exit_status_one_past_chdir :
  host_chdir project_dir garbled_world = Entered (enter garbled_world)
  /\ fst (fst (script garbled_world)) = 1%Z.
Proof. split; reflexivity. Qed.

(** ** The command line *)

Lemma quote_skeleton_app (a b : string) :
  quote_skeleton (a ++ b) = (quote_skeleton a ++ quote_skeleton b)%string.
Proof.
  induction a as [|c a IH]; simpl; [reflexivity|].
  destruct (is_quote c); simpl; now rewrite IH.
Qed.

Lemma has_quote_skeleton (s : string) :
  has_quote s = false <-> quote_skeleton s = EmptyString.
Proof.
  induction s as [|c s IH]; simpl; [tauto|].
  destruct (is_quote c); simpl; [split; discriminate | exact IH].
Qed.

Lemma build_cmd_skeleton (abs : string) :
  quote_skeleton (build_cmd abs)
  = (squote ++ dquote ++ dquote ++ dquote ++ quote_skeleton abs
     ++ dquote ++ squote)%string.
Proof.
  unfold build_cmd, dquote, squote. simpl.
  now rewrite quote_skeleton_app.
Qed.

Lemma build_cmd_length (abs : string) :
  String.length (build_cmd abs) = 51 + String.length abs.
Proof.
  unfold build_cmd, dquote. simpl.
  rewrite string_length_append. simpl. lia.
Qed.

(** C9.  On a run that gets past the change of directory and that no
    command puts an end to, every listed path is checked, with the
    host's answer in the world the earlier commands have left.  In any
    run, a check answered yes is followed at once by the line
    announcing the path, the lookup of its absolute form, and the
    command handed to the shell in that same world, whose text is the
    fixed prefix, the absolute form character for character, and the
    fixed suffix; and no command is handed to the shell in any other
    way.  The quote characters of the command are therefore those of
    the fixed text with those of the absolute form in between: they are
    the plain pattern when the absolute form holds no quote, and differ
    from it as soon as it holds a single or a double quote. *)
Theorem open_command_text_verbatim
  {World : Type} {H : Host World} (w w1 : World) :
  host_chdir project_dir w = Entered w1 ->
  (clean_run (trace_of (main w)) = true ->
   forall p, In p files_to_add ->
     exists pre post,
       trace_of (main w)
       = pre ++ EvExists p (host_exists p (replay (commands pre) w1)) :: post)
  /\ (forall pre p a post,
        trace_of (main w) = pre ++ EvExists p a :: post ->
        a = host_exists p (replay (commands pre) w1)
        /\ In p files_to_add
        /\ (a = true ->
            exists rest,
              post = EvPrint (adding_line p)
                     :: EvAbspath p (host_abspath p (replay (commands pre) w1))
                     :: EvRun (build_cmd
                                 (host_abspath p (replay (commands pre) w1)))
                          (fst (host_spawn
                                  (build_cmd
                                     (host_abspath p (replay (commands pre) w1)))
                                  (replay (commands pre) w1)))
                     :: rest))
  /\ (forall pre cmd o post,
        trace_of (main w) = pre ++ EvRun cmd o :: post ->
        exists pre' p,
          pre = pre' ++ [EvExists p true; EvPrint (adding_line p);
                         EvAbspath p (host_abspath p (replay (commands pre) w1))]
          /\ In p files_to_add
          /\ host_exists p (replay (commands pre) w1) = true
          /\ cmd = build_cmd (host_abspath p (replay (commands pre) w1)))
  /\ (forall abs,
        build_cmd abs
        = ("osascript -e " ++ squote ++ "tell application " ++ dquote
           ++ "Xcode" ++ dquote ++ " to open " ++ dquote ++ abs ++ dquote
           ++ ";" ++ squote)%string
        /\ String.length (build_cmd abs) = 51 + String.length abs
        /\ quote_skeleton (build_cmd abs)
           = (squote ++ dquote ++ dquote ++ dquote ++ quote_skeleton abs
              ++ dquote ++ squote)%string
        /\ (has_quote abs = false ->
            quote_skeleton (build_cmd abs) = plain_skeleton)
        /\ (has_quote abs = true ->
            quote_skeleton (build_cmd abs) <> plain_skeleton)).
Proof.
  intro Hc. split; [|split; [|split]].
  - intros Hcl p Hp.
    destruct (main_checked w w1 Hc) as (_ & Hok & _).
    destruct (Hok Hcl) as (Hall & _).
    rewrite <- Hall in Hp. apply in_map_iff in Hp as ([q a] & Eq & Hin).
    simpl in Eq; subst q.
    apply exists_log_in in Hin as (pre & post & E).
    exists pre, post.
    destruct (main_check w w1 pre post p a Hc E) as (<- & _).
    exact E.
  - intros pre p a post E.
    destruct (main_check w w1 pre post p a Hc E)
      as (Ha & Hp & _ & rest & Ep & _).
    split; [exact Ha|]. split; [exact Hp|].
    intros ->. eexists. rewrite Ep. cbn [app]. reflexivity.
  - intros pre cmd o post E.
    destruct (main_command w w1 pre post cmd o Hc E)
      as (pre' & p & Epre & Hp & Hex & Ecmd & _).
    exists pre', p. auto.
  - intro abs. split; [reflexivity|]. split; [apply build_cmd_length|].
    split; [apply build_cmd_skeleton|]. split.
    + intro Hq. apply has_quote_skeleton in Hq.
      rewrite build_cmd_skeleton, Hq. reflexivity.
    + intros Hq E. rewrite build_cmd_skeleton in E.
      unfold plain_skeleton, squote, dquote in E. simpl in E.
      injection E as E.
      change (String "034" (String "039" ""))
        with (EmptyString ++ String "034" (String "039" ""))%string in E at 2.
      apply string_append_cancel_r in E.
      apply has_quote_skeleton in E. congruence.
Qed.

Lemma open_command_text_verbatim_witness :
  host_chdir project_dir sample_world = Entered sample_entered
  /\ clean_run (trace_of (main sample_world)) = true
  /\ In "PrestigeNative/Core/Models/APIModels.swift" files_to_add
  /\ exists pre post,
       trace_of (main sample_world)
       = pre ++ EvExists "PrestigeNative/Core/Models/APIModels.swift"
                  (host_exists "PrestigeNative/Core/Models/APIModels.swift"
                     (replay (commands pre) sample_entered)) :: post.
Proof.
  assert (Hc : host_chdir project_dir sample_world = Entered sample_entered)
    by reflexivity.
  split; [exact Hc|]. split; [reflexivity|].
  assert (Hp : In "PrestigeNative/Core/Models/APIModels.swift" files_to_add)
    by (right; now left).
  split; [exact Hp|].
  apply (proj1 (open_command_text_verbatim sample_world sample_entered Hc)
           eq_refl _ Hp).
Defined.

(** ** The world after a run *)

(** C8.  What the run itself asks of the filesystem is the change to
    the project directory, existence checks of listed paths and the
    absolute forms of listed paths; everything else in its trace is a
    printed line or an external command.  No call of the run changes
    the world except [os.chdir] and the external commands: any
    observation of the world that those two leave alone has the same
    value after the run as before it. *)
Theorem registrar_leaves_filesystem_unchanged
  {World : Type} {H : Host World} {F : Type} (fs : World -> F) (w : World) :
  (forall d u u', host_chdir d u = Entered u' -> fs u' = fs u) ->
  (forall cmd u, fs (snd (host_spawn cmd u)) = fs u) ->
  fs (world_of (main w)) = fs w
  /\ Forall fs_access_allowed (trace_of (main w)).
Proof.
  intros Hd Hs. destruct (host_chdir project_dir w) as [w1|e] eqn:Hc.
  - destruct (main_logs w w1 Hc)
      as (r & u' & t & Hl & _ & _ & -> & -> & _).
    split.
    + rewrite (lr_fs_world fs _ _ _ _ _ Hs Hl). now apply (Hd project_dir).
    + apply Forall_cons; [reflexivity|].
      apply Forall_app; split.
      * apply (lr_fs_access _ _ _ _ _ Hl), incl_refl.
      * destruct r; cbn [closing_events];
          [apply Forall_cons; [exact I | apply Forall_nil] | apply Forall_nil].
  - rewrite (main_refused w e Hc). split; [reflexivity|].
    apply Forall_cons; [reflexivity | apply Forall_nil].
Qed.

Lemma registrar_leaves_filesystem_unchanged_witness :
  toy_files (world_of (main sample_world)) = toy_files sample_world
  /\ Forall fs_access_allowed (trace_of (main sample_world)).
Proof.
  apply (registrar_leaves_filesystem_unchanged toy_files sample_world).
  - intros d u u'. simpl. destruct (mem d (toy_dirs u)).
    + intro E. injection E as <-. reflexivity.
    + destruct (mem d (toy_notdirs u)); discriminate.
  - intros cmd u. simpl. destruct (negb (toy_shell u)); [reflexivity|].
    destruct (mem cmd (toy_garbled u)); [reflexivity|].
    destruct (mem cmd (toy_broken u)); reflexivity.
Defined.

(** ** Hosts whose commands leave the listed files alone *)

Section Stable.
Context {World : Type} {H : Host World}.

Lemma turn_info_lines (p : string) (v : World) :
  info_lines (turn_events p v) = [entry_line (p, host_exists p v)].
Proof.
  unfold info_lines, turn_events, entry_line.
  destruct (host_exists p v); [|reflexivity].
  unfold handler_prints.
  destruct (fst (host_spawn _ v)) as [res| |];
    [destruct (returncode res =? 0)%Z|..]; reflexivity.
Qed.

Lemma lr_info_lines (u u' : World) (l : list string) (r : Result unit)
  (t : list event) :
  loop_run u l r u' t -> info_lines t = map entry_line (exists_log t).
Proof.
  induction 1 as [u | u p l r u' t Hx Hl IH | u p l x Hx].
  - reflexivity.
  - unfold info_lines in *.
    rewrite printed_app, filter_app, exists_log_app, map_app, IH.
    fold (info_lines (turn_events p u)).
    now rewrite turn_info_lines, turn_exists_log.
  - now rewrite turn_info_lines, turn_exists_log.
Qed.

Lemma lr_stable (u u' : World) (l : list string) (r : Result unit)
  (t : list event) :
  loop_run u l r u' t ->
  (forall c v p, In p l ->
     host_exists p (snd (host_spawn c v)) = host_exists p v) ->
  (forall c v p, In p l ->
     host_abspath p (snd (host_spawn c v)) = host_abspath p v) ->
  exists n,
    n <= length l
    /\ (r = Ok tt -> n = length l)
    /\ exists_log t = map (fun p => (p, host_exists p u)) (firstn n l)
    /\ abspath_log t
       = map (fun p => (p, host_abspath p u))
           (filter (fun p => host_exists p u) (firstn n l)).
Proof.
  induction 1 as [u | u p l r u' t Hx Hl IH | u p l x Hx]; intros Hex Hab.
  - exists 0. repeat split; auto.
  - assert (Hex' : forall c v q, In q l ->
              host_exists q (snd (host_spawn c v)) = host_exists q v)
      by (intros; apply Hex; now right).
    assert (Hab' : forall c v q, In q l ->
              host_abspath q (snd (host_spawn c v)) = host_abspath q v)
      by (intros; apply Hab; now right).
    destruct (IH Hex' Hab') as (n & Hn & Hok & Ee & Ea).
    assert (He : forall q, In q l ->
              host_exists q (turn_world p u) = host_exists q u).
    { intros q Hq. unfold turn_world.
      destruct (host_exists p u); [now apply Hex'|reflexivity]. }
    assert (Ha : forall q, In q l ->
              host_abspath q (turn_world p u) = host_abspath q u).
    { intros q Hq. unfold turn_world.
      destruct (host_exists p u); [now apply Hab'|reflexivity]. }
    exists (S n). split; [simpl; lia|].
    split; [intro Hr; simpl; now rewrite (Hok Hr)|].
    rewrite exists_log_app, abspath_log_app, turn_exists_log,
      turn_abspath_log, Ee, Ea.
    cbn [firstn map filter app].
    assert (E1 : map (fun q => (q, host_exists q (turn_world p u))) (firstn n l)
                 = map (fun q => (q, host_exists q u)) (firstn n l)).
    { apply map_ext_in. intros q Hq. now rewrite He by now apply (In_firstn n). }
    assert (E2 : filter (fun q => host_exists q (turn_world p u)) (firstn n l)
                 = filter (fun q => host_exists q u) (firstn n l)).
    { apply filter_ext_in. intros q Hq. now apply He, (In_firstn n). }
    assert (E3 : map (fun q => (q, host_abspath q (turn_world p u)))
                   (filter (fun q => host_exists q u) (firstn n l))
                 = map (fun q => (q, host_abspath q u))
                     (filter (fun q => host_exists q u) (firstn n l))).
    { apply map_ext_in. intros q Hq. apply filter_In in Hq as [Hq _].
      now rewrite Ha by now apply (In_firstn n). }
    rewrite E1, E2, E3.
    destruct (host_exists p u); split; reflexivity.
  - exists 1. split; [simpl; lia|]. split; [discriminate|].
    rewrite turn_exists_log, turn_abspath_log. cbn [firstn map filter].
    destruct (host_exists p u); split; reflexivity.
Qed.

(** A run past [os.chdir] on a host whose commands leave the listed
    paths alone: what it checks, issues and prints, from the world
    right after the change of directory. *)
Lemma main_stable (w w1 : World) :
  (forall c v p, In p files_to_add ->
     host_exists p (snd (host_spawn c v)) = host_exists p v) ->
  (forall c v p, In p files_to_add ->
     host_abspath p (snd (host_spawn c v)) = host_abspath p v) ->
  host_chdir project_dir w = Entered w1 ->
  exists n,
    n <= 13
    /\ (clean_run (trace_of (main w)) = true -> n = 13)
    /\ exists_log (trace_of (main w))
       = map (fun p => (p, host_exists p w1)) (firstn n files_to_add)
    /\ commands (trace_of (main w))
       = map (fun p => build_cmd (host_abspath p w1))
           (filter (fun p => host_exists p w1) (firstn n files_to_add))
    /\ info_lines (trace_of (main w))
       = map (fun p => entry_line (p, host_exists p w1))
           (firstn n files_to_add)
         ++ (if clean_run (trace_of (main w)) then [closing_message] else []).
Proof.
  intros Hex Hab Hc.
  destruct (main_checked w w1 Hc) as (_ & Hok & Hbad).
  destruct (main_lists w w1 Hc) as (_ & Ecmd & _).
  destruct (main_logs w w1 Hc)
    as (r & u' & t & Hl & _ & Er & _ & _ & Ee & Ea & _ & Ep).
  destruct (lr_stable _ _ _ _ _ Hl Hex Hab) as (n & Hn & Hfull & Se & Sa).
  exists n. split; [exact Hn|]. split.
  { intro Hcl. destruct (Hok Hcl) as (_ & Hr & _).
    apply Hfull. congruence. }
  split; [now rewrite Ee|]. split.
  { rewrite Ecmd, Ea, Sa, !map_map. reflexivity. }
  unfold info_lines. rewrite Ep, filter_app.
  fold (info_lines t). rewrite (lr_info_lines _ _ _ _ _ Hl), Se, map_map.
  f_equal.
  destruct (clean_run (trace_of (main w))) eqn:Hcl.
  - destruct (Hok eq_refl) as (_ & Hr & _). rewrite Er in Hr.
    rewrite Hr. reflexivity.
  - destruct (Hbad eq_refl) as (x & _ & _ & _ & Hr & _).
    rewrite Er in Hr. rewrite Hr. reflexivity.
Qed.

End Stable.

(** ** Two runs compared *)

(** C7.  Take two runs, on any two hosts, both past the change of
    directory, where no command changes whether a listed path exists or
    what its absolute form is, and where the listed paths exist alike
    and have the same absolute forms right after the change of
    directory.  The filesystem alone then fixes one sequence of
    commands, the open commands of the listed paths that exist, in list
    order, and one sequence of lines, the "Adding" or "Warning" line of
    each listed path.  Each run issues the commands and prints the
    lines (other than the handler's) of the first so many listed paths,
    all thirteen and the closing message when no command puts an end to
    it.  So two runs that no command puts an end to issue the same
    commands and print the same such lines, whatever codes, output and
    errors the commands returned. *)
Theorem decision_logic_deterministic
  {W1 W2 : Type} (H1 : Host W1) (H2 : Host W2)
  (w1 u1 : W1) (w2 u2 : W2) :
  host_chdir project_dir w1 = Entered u1 ->
  host_chdir project_dir w2 = Entered u2 ->
  (forall c v p, In p files_to_add ->
     host_exists p (snd (@host_spawn W1 H1 c v)) = host_exists p v) ->
  (forall c v p, In p files_to_add ->
     host_abspath p (snd (@host_spawn W1 H1 c v)) = host_abspath p v) ->
  (forall c v p, In p files_to_add ->
     host_exists p (snd (@host_spawn W2 H2 c v)) = host_exists p v) ->
  (forall c v p, In p files_to_add ->
     host_abspath p (snd (@host_spawn W2 H2 c v)) = host_abspath p v) ->
  (forall p, In p files_to_add ->
     host_exists p u1 = host_exists p u2
     /\ host_abspath p u1 = host_abspath p u2) ->
  let plan := fun l =>
    map (fun p => build_cmd (host_abspath p u1))
      (filter (fun p => host_exists p u1) l) in
  let lines := fun l => map (fun p => entry_line (p, host_exists p u1)) l in
  (exists n1 n2,
     commands (trace_of (main w1)) = plan (firstn n1 files_to_add)
     /\ commands (trace_of (main w2)) = plan (firstn n2 files_to_add)
     /\ info_lines (trace_of (main w1))
        = lines (firstn n1 files_to_add)
          ++ (if clean_run (trace_of (main w1))
              then [closing_message] else [])
     /\ info_lines (trace_of (main w2))
        = lines (firstn n2 files_to_add)
          ++ (if clean_run (trace_of (main w2))
              then [closing_message] else [])
     /\ (clean_run (trace_of (main w1)) = true -> n1 = 13)
     /\ (clean_run (trace_of (main w2)) = true -> n2 = 13))
  /\ (clean_run (trace_of (main w1)) = true ->
      clean_run (trace_of (main w2)) = true ->
      commands (trace_of (main w1)) = commands (trace_of (main w2))
      /\ info_lines (trace_of (main w1)) = info_lines (trace_of (main w2))).
Proof.
  intros Hc1 Hc2 He1 Ha1 He2 Ha2 Hsame plan lines.
  destruct (main_stable w1 u1 He1 Ha1 Hc1) as (n1 & _ & F1 & _ & C1 & I1).
  destruct (main_stable w2 u2 He2 Ha2 Hc2) as (n2 & _ & F2 & _ & C2 & I2).
  assert (C2' : commands (trace_of (main w2)) = plan (firstn n2 files_to_add)).
  { rewrite C2. unfold plan.
    rewrite (filter_ext_in (fun p => host_exists p u2)
               (fun p => host_exists p u1)).
    - apply map_ext_in. intros p Hp. apply filter_In in Hp as [Hp _].
      apply (In_firstn n2) in Hp. now destruct (Hsame p Hp) as [_ <-].
    - intros p Hp. apply (In_firstn n2) in Hp.
      now destruct (Hsame p Hp) as [<- _]. }
  assert (I2' : info_lines (trace_of (main w2))
                = lines (firstn n2 files_to_add)
                  ++ (if clean_run (trace_of (main w2))
                      then [closing_message] else [])).
  { rewrite I2. f_equal. apply map_ext_in. intros p Hp.
    apply (In_firstn n2) in Hp. now destruct (Hsame p Hp) as [<- _]. }
  split.
  - exists n1, n2. auto 10.
  - intros Hcl1 Hcl2. rewrite C1, C2', I1, I2', Hcl1, Hcl2.
    rewrite (F1 Hcl1), (F2 Hcl2). now split.
Qed.

Lemma toy_commands_leave_files_alone (c : string) (v : ToyOS) :
  toy_files (snd (host_spawn c v)) = toy_files v
  /\ toy_cwd (snd (host_spawn c v)) = toy_cwd v.
Proof.
  simpl. destruct (negb (toy_shell v)); [now split|].
  destruct (mem c (toy_garbled v)); [now split|].
  destruct (mem c (toy_broken v)); now split.
Qed.

Lemma toy_stable (c : string) (v : ToyOS) (p : string) :
  host_exists p (snd (host_spawn c v)) = host_exists p v
  /\ host_abspath p (snd (host_spawn c v)) = host_abspath p v.
Proof.
  destruct (toy_commands_leave_files_alone c v) as [Ef Ec].
  unfold host_exists, host_abspath; cbn [toy_host].
  now rewrite Ef, Ec.
Qed.

Lemma decision_logic_deterministic_witness :
  runs (trace_of (main sample_world)) <> runs (trace_of (main calm_world))
  /\ commands (trace_of (main sample_world))
     = commands (trace_of (main calm_world))
  /\ info_lines (trace_of (main sample_world))
     = info_lines (trace_of (main calm_world)).
Proof.
  split; [discriminate|].
  apply (proj2 (decision_logic_deterministic toy_host toy_host
                  sample_world (enter sample_world)
                  calm_world (enter calm_world)
                  eq_refl eq_refl
                  (fun c v p _ => proj1 (toy_stable c v p))
                  (fun c v p _ => proj2 (toy_stable c v p))
                  (fun c v p _ => proj1 (toy_stable c v p))
                  (fun c v p _ => proj2 (toy_stable c v p))
                  (fun p _ => conj eq_refl eq_refl)));
    reflexivity.
Defined.

Lemma same_filesystem_other_commands :
  (forall p, host_exists p (enter sample_world)
             = host_exists p (enter garbled_world)
             /\ host_abspath p (enter sample_world)
                = host_abspath p (enter garbled_world))
  /\ (forall c v p,
        host_exists p (snd (@host_spawn ToyOS toy_host c v)) = host_exists p v
        /\ host_abspath p (snd (@host_spawn ToyOS toy_host c v))
           = host_abspath p v)
  /\ length (commands (trace_of (main sample_world))) = 2
  /\ length (commands (trace_of (main garbled_world))) = 1
  /\ commands (trace_of (main sample_world))
     <> commands (trace_of (main garbled_world))
  /\ info_lines (trace_of (main sample_world))
     <> info_lines (trace_of (main garbled_world)).
Proof.
  split; [intro p; split; reflexivity|].
  split; [exact toy_stable|].
  repeat split; discriminate.
Qed.

(** ** [str.strip] *)

Lemma lstrip_spec (s : string) :
  exists a, s = (a ++ lstrip s)%string /\ all_space a = true
            /\ forall c, first_char (lstrip s) = Some c -> isspace c = false.
Proof.
  induction s as [|c r (a & E & Ha & Hf)]; simpl.
  - exists EmptyString. repeat split. discriminate.
  - destruct (isspace c) eqn:Hc.
    + exists (String c a). simpl. rewrite Hc, Ha, <- E. auto.
    + exists EmptyString. repeat split. simpl. congruence.
Qed.

Lemma rstrip_spec (s : string) :
  exists b, s = (rstrip s ++ b)%string /\ all_space b = true
            /\ forall c, last_char (rstrip s) = Some c -> isspace c = false.
Proof.
  induction s as [|c r (b & E & Hb & Hl)]; simpl.
  - exists EmptyString. repeat split. discriminate.
  - destruct (rstrip r) as [|d r'] eqn:Er.
    + simpl in E. subst r. destruct (isspace c) eqn:Hc.
      * exists (String c b). simpl. rewrite Hc, Hb. repeat split. discriminate.
      * exists b. simpl. repeat split; [exact Hb | congruence].
    + exists b. rewrite E at 1. repeat split; [exact Hb|].
      intros x Hx. apply Hl. exact Hx.
Qed.

Lemma rstrip_first_char (s : string) (c : ascii) :
  first_char (rstrip s) = Some c -> first_char s = Some c.
Proof.
  destruct s as [|x r]; simpl; [discriminate|].
  destruct (rstrip r); [destruct (isspace x)|]; simpl; congruence.
Qed.

Lemma strip_spec (s : string) :
  exists a b,
    s = (a ++ strip s ++ b)%string
    /\ all_space a = true /\ all_space b = true
    /\ (forall c, first_char (strip s) = Some c -> isspace c = false)
    /\ (forall c, last_char (strip s) = Some c -> isspace c = false).
Proof.
  destruct (lstrip_spec s) as (a & Ea & Ha & Hf).
  destruct (rstrip_spec (lstrip s)) as (b & Eb & Hb & Hl).
  exists a, b. unfold strip. rewrite <- Eb, <- Ea.
  repeat split; auto.
  intros c Hc. apply Hf. now apply rstrip_first_char.
Qed.

(** ** The same run with other outcomes *)

Section OtherOutcome.
Context {World : Type} {H : Host World}.
Variable f : string -> Spawned -> Spawned.
Hypothesis f_escapes : forall c o, escapes (f c o) = escapes o.
Hypothesis f_prints : forall c o, handler_prints c (f c o) = handler_prints c o.

Lemma turn_with_outcome (p : string) (u : World) :
  @turn_raises World (with_outcome f H) p u = turn_raises p u
  /\ @turn_world World (with_outcome f H) p u = turn_world p u
  /\ @turn_events World (with_outcome f H) p u
     = map (remap f) (turn_events p u).
Proof.
  unfold turn_raises, turn_world, turn_events. simpl.
  destruct (host_exists p u); [|now repeat split].
  destruct (host_spawn (build_cmd (host_abspath p u)) u) as [o w']; simpl.
  rewrite f_escapes, f_prints. repeat split.
  do 4 f_equal. unfold handler_prints.
  destruct o as [res| |]; [destruct (returncode res =? 0)%Z|..]; reflexivity.
Qed.

Lemma for_each_with_outcome (l : list string) (w : World) :
  @for_each World string l (@add_file World (with_outcome f H)) w
  = (result_of (for_each l add_file w), world_of (for_each l add_file w),
     map (remap f) (trace_of (for_each l add_file w))).
Proof.
  revert w; induction l as [|p l IH]; intro w; [reflexivity|].
  simpl. unfold bind.
  rewrite (@add_file_turn World (with_outcome f H)).
  rewrite (@add_file_turn World H).
  destruct (turn_with_outcome p w) as (-> & -> & ->).
  destruct (turn_raises p w) as [x|]; [reflexivity|].
  rewrite IH.
  destruct (for_each l add_file (turn_world p w)) as [[r u'] t].
  unfold result_of, world_of, trace_of; cbn [fst snd].
  now rewrite map_app.
Qed.

Lemma main_with_outcome (w : World) :
  @main World (with_outcome f H) w
  = (result_of (main w), world_of (main w),
     map (remap f) (trace_of (main w))).
Proof.
  unfold main, bind, os_chdir.
  change (@host_chdir World (with_outcome f H)) with (@host_chdir World H).
  destruct (host_chdir project_dir w) as [w1|e]; [|reflexivity].
  rewrite for_each_with_outcome.
  destruct (for_each files_to_add add_file w1) as [[[[]|x] u'] t];
    unfold result_of, world_of, trace_of, print; cbn [fst snd];
    [|reflexivity].
  now rewrite !map_app.
Qed.

Lemma logs_remap (t : list event) :
  printed (map (remap f) t) = printed t
  /\ exists_log (map (remap f) t) = exists_log t
  /\ commands (map (remap f) t) = commands t.
Proof.
  unfold commands.
  induction t as [|e t (IH1 & IH2 & IH3)]; [now repeat split|].
  destruct e; simpl; rewrite ?IH1, ?IH2, ?IH3; now repeat split.
Qed.

End OtherOutcome.

Lemma other_stdout_keeps (g : string -> string -> string) :
  (forall c o, escapes (other_stdout g c o) = escapes o)
  /\ (forall c o, handler_prints c (other_stdout g c o) = handler_prints c o).
Proof. split; intros c [res| |]; reflexivity. Qed.

(** C10.  What [run_command] does follows what became of the command.
    If the process completed with text output and code zero, it returns
    the captured standard output with its leading and trailing
    whitespace removed.  If it completed with text output and another
    code, it makes its two print calls and returns [None].  If the
    captured output is not text, whatever the code, or the process
    could not be started, it prints nothing and lets the exception out.
    So it returns [None] exactly when the process completed with text
    output and a code other than zero.  The stripped text is the
    captured text less a run of whitespace at each end, and neither
    starts nor ends with whitespace.  [main] does nothing with the
    value: handing back any other text as the captured standard output
    of the commands that completed leaves the result, the final world
    and every printed text of the run as they were. *)
Theorem run_command_result_discarded
  {World : Type} {H : Host World} :
  (forall cmd w,
     match fst (host_spawn cmd w) with
     | Completed res =>
         if (returncode res =? 0)%Z
         then run_command cmd w
              = (Ok (Some (strip (stdout res))), snd (host_spawn cmd w),
                 [EvRun cmd (Completed res)])
         else run_command cmd w
              = (Ok None, snd (host_spawn cmd w),
                 [EvRun cmd (Completed res);
                  EvPrint ("Error running command: " ++ cmd);
                  EvPrint ("Error: " ++ stderr res)])
     | Garbled code =>
         run_command cmd w
         = (Raised UnicodeDecodeError, snd (host_spawn cmd w),
            [EvRun cmd (Garbled code)])
     | NotStarted (StartOSError e) =>
         run_command cmd w
         = (Raised (OSError e "/bin/sh"), snd (host_spawn cmd w),
            [EvRun cmd (NotStarted (StartOSError e))])
     | NotStarted StartValueError =>
         run_command cmd w
         = (Raised ValueError, snd (host_spawn cmd w),
            [EvRun cmd (NotStarted StartValueError)])
     end
     /\ (result_of (run_command cmd w) = Ok None
         <-> exists res, fst (host_spawn cmd w) = Completed res
                         /\ returncode res <> 0%Z))
  /\ (forall s, exists a b,
        s = (a ++ strip s ++ b)%string
        /\ all_space a = true /\ all_space b = true
        /\ (forall c, first_char (strip s) = Some c -> isspace c = false)
        /\ (forall c, last_char (strip s) = Some c -> isspace c = false))
  /\ (forall (g : string -> string -> string) (w : World),
        printed (trace_of (@main World (with_stdout g H) w))
        = printed (trace_of (main w))
        /\ result_of (@main World (with_stdout g H) w) = result_of (main w)
        /\ world_of (@main World (with_stdout g H) w) = world_of (main w)).
Proof.
  split; [|split].
  - intros cmd w. rewrite run_command_unfold.
    destruct (fst (host_spawn cmd w)) as [res | code | [e|]];
      cbn [escapes run_value handler_prints].
    + destruct (returncode res =? 0)%Z eqn:E.
      * split; [reflexivity|]. unfold result_of; cbn [fst]. split.
        -- discriminate.
        -- intros (res' & Er & Hn). injection Er as <-.
           apply Z.eqb_eq in E. contradiction.
      * split; [reflexivity|]. unfold result_of; cbn [fst]. split.
        -- intros _. exists res. split; [reflexivity|]. now apply Z.eqb_neq.
        -- reflexivity.
    + split; [reflexivity|]. unfold result_of; cbn [fst]. split.
      * discriminate.
      * intros (res & Er & _). discriminate Er.
    + split; [reflexivity|]. unfold result_of; cbn [fst]. split.
      * discriminate.
      * intros (res & Er & _). discriminate Er.
    + split; [reflexivity|]. unfold result_of; cbn [fst]. split.
      * discriminate.
      * intros (res & Er & _). discriminate Er.
  - exact strip_spec.
  - intros g w. unfold with_stdout.
    destruct (other_stdout_keeps g) as [Hk Hp].
    rewrite (main_with_outcome (other_stdout g) Hk Hp).
    destruct (logs_remap (other_stdout g) (trace_of (main w))) as (L1 & _).
    split; [exact L1|]. split; reflexivity.
Qed.

Lemma run_command_result_discarded_witness :
  result_of (run_command
               (build_cmd (in_project "PrestigeNative/Core/Models/APIModels.swift"))
               sample_entered)
  = Ok None.
Proof.
  apply (proj2 (proj1 run_command_result_discarded
                  (build_cmd (in_project "PrestigeNative/Core/Models/APIModels.swift"))
                  sample_entered)).
  exists (mkCompleted 1 "" ("execution error" ++ LF)).
  split; [reflexivity | simpl; lia].
Defined.

Lemma non_zero_exit_without_none :
  fst (host_spawn
         (build_cmd (in_project "PrestigeNative/Core/Models/APIEndpoints.swift"))
         (enter garbled_world))
  = Garbled 1
  /\ result_of (run_command
                  (build_cmd (in_project "PrestigeNative/Core/Models/APIEndpoints.swift"))
                  (enter garbled_world))
     = Raised UnicodeDecodeError
  /\ result_of (run_command
                  (build_cmd (in_project "PrestigeNative/Core/Models/APIEndpoints.swift"))
                  (enter garbled_world))
     <> Ok None
  /\ printed (trace_of (run_command
                  (build_cmd (in_project "PrestigeNative/Core/Models/APIEndpoints.swift"))
                  (enter garbled_world)))
     = [].
Proof. repeat split. discriminate. Qed.

(** ** The loop over any list of paths *)

(** X1.  The loop of [main], run over any list of paths (empty, or with
    repeated entries) from any world, checks the entries in list order,
    one check per occurrence, from the first on; each check has the
    answer the host gives in the world the earlier commands have left;
    and it issues as many commands as checks answered yes.  It returns
    normally exactly when no command puts an end to it, and has then
    checked every entry; otherwise it raises what the last command of
    its trace lets out.  Over the empty list it does nothing. *)
Theorem loop_handles_any_list
  {World : Type} {H : Host World} (l : list string) (w : World) :
  (exists n,
     map fst (exists_log (trace_of (for_each l add_file w))) = firstn n l)
  /\ (clean_run (trace_of (for_each l add_file w)) = true
      <-> result_of (for_each l add_file w) = Ok tt)
  /\ (clean_run (trace_of (for_each l add_file w)) = true ->
      map fst (exists_log (trace_of (for_each l add_file w))) = l)
  /\ (forall pre p a post,
        trace_of (for_each l add_file w) = pre ++ EvExists p a :: post ->
        a = host_exists p (replay (commands pre) w))
  /\ length (commands (trace_of (for_each l add_file w)))
     = length (filter snd (exists_log (trace_of (for_each l add_file w))))
  /\ (forall x, result_of (for_each l add_file w) = Raised x ->
        exists pre c o,
          trace_of (for_each l add_file w) = pre ++ [EvRun c o]
          /\ escapes o = Some x)
  /\ for_each [] add_file w = (Ok tt, w, []).
Proof.
  pose proof (for_each_loop_run l w) as Hl.
  destruct (lr_checked _ _ _ _ _ Hl) as [Hn Hok].
  destruct (lr_lists _ _ _ _ _ Hl) as [E1 E2].
  split; [exact Hn|]. split; [|split; [|split; [|split; [|split]]]].
  - destruct (lr_result _ _ _ _ _ Hl)
      as [[-> Ht]|(x & pre & c & o & -> & _ & _ & _ & _ & Hf)].
    + now split.
    + rewrite Hf. split; discriminate.
  - intro Hcl. apply Hok.
    destruct (lr_result _ _ _ _ _ Hl)
      as [[Hr _]|(x & pre & c & o & _ & _ & _ & _ & _ & Hf)];
      [exact Hr | congruence].
  - intros pre p a post E.
    destruct (lr_locate _ _ _ _ _ Hl _ _ _ E)
      as (l1 & q & l2 & t1 & a0 & b & t2 & _ & _ & _ & -> & _ & Ht & _).
    apply turn_check_inv in Ht as (-> & -> & -> & _).
    now rewrite app_nil_r.
  - rewrite E2, !length_map. now apply length_filter_snd_log.
  - intros x Hx.
    destruct (lr_result _ _ _ _ _ Hl)
      as [[Hr _]|(y & pre & c & o & Hr & E & _ & He & _)];
      [congruence|].
    exists pre, c, o. split; [exact E|]. congruence.
  - reflexivity.
Qed.

Lemma loop_handles_any_list_witness :
  result_of (for_each ["a.swift"; "a.swift"] add_file sample_entered) = Ok tt
  /\ map fst (exists_log (trace_of (for_each ["a.swift"; "a.swift"] add_file
                                      sample_entered)))
     = ["a.swift"; "a.swift"].
Proof.
  split; [reflexivity|].
  apply (proj1 (proj2 (proj2 (loop_handles_any_list ["a.swift"; "a.swift"]
                                sample_entered)))).
  reflexivity.
Defined.

(** ** Worlds along a run *)

(** X4.  The world a run leaves behind is the world after the change
    of directory with the commands the run issued applied to it one
    after the other, in the order issued, and nothing else. *)
Theorem final_world_is_commands_replayed
  {World : Type} {H : Host World} (w w1 : World) :
  host_chdir project_dir w = Entered w1 ->
  world_of (main w) = replay (commands (trace_of (main w))) w1.
Proof.
  intro Hc.
  destruct (main_logs w w1 Hc)
    as (r & u' & t & Hl & _ & _ & -> & _ & _ & _ & Ern & _).
  unfold commands. rewrite Ern. now apply lr_world in Hl.
Qed.

Lemma final_world_is_commands_replayed_witness :
  host_chdir project_dir sample_world = Entered sample_entered
  /\ world_of (main sample_world)
     = replay (commands (trace_of (main sample_world))) sample_entered.
Proof.
  split; [reflexivity|].
  apply (final_world_is_commands_replayed sample_world sample_entered).
  reflexivity.
Defined.

(** X6.  Suppose no command changes whether a listed path exists or
    what its absolute form is.  Then on a run that gets past the change
    of directory, with [w1] the world right after it, the checks made
    are the first so many listed paths with the answers they have in
    [w1], and the commands issued are the open commands of the absolute
    forms in [w1] of those among them that exist in [w1], in list
    order; all thirteen listed paths are covered when no command puts
    an end to the run. *)
Theorem commands_on_a_stable_filesystem
  {World : Type} {H : Host World} (w w1 : World) :
  (forall c u p, In p files_to_add ->
     host_exists p (snd (host_spawn c u)) = host_exists p u) ->
  (forall c u p, In p files_to_add ->
     host_abspath p (snd (host_spawn c u)) = host_abspath p u) ->
  host_chdir project_dir w = Entered w1 ->
  (exists n,
     exists_log (trace_of (main w))
     = map (fun p => (p, host_exists p w1)) (firstn n files_to_add)
     /\ commands (trace_of (main w))
        = map (fun p => build_cmd (host_abspath p w1))
            (filter (fun p => host_exists p w1) (firstn n files_to_add)))
  /\ (clean_run (trace_of (main w)) = true ->
      exists_log (trace_of (main w))
      = map (fun p => (p, host_exists p w1)) files_to_add
      /\ commands (trace_of (main w))
         = map (fun p => build_cmd (host_abspath p w1))
             (filter (fun p => host_exists p w1) files_to_add)).
Proof.
  intros Hex Hab Hc.
  destruct (main_stable w w1 Hex Hab Hc) as (n & _ & Hfull & Ee & Ec & _).
  split; [exists n; now split|].
  intro Hcl. rewrite Ee, Ec, (Hfull Hcl). now split.
Qed.

Lemma commands_on_a_stable_filesystem_witness :
  host_chdir project_dir sample_world = Entered sample_entered
  /\ clean_run (trace_of (main sample_world)) = true
  /\ commands (trace_of (main sample_world))
     = map (fun p => build_cmd (host_abspath p sample_entered))
         (filter (fun p => host_exists p sample_entered) files_to_add).
Proof.
  split; [reflexivity|]. split; [reflexivity|].
  apply (proj2 (commands_on_a_stable_filesystem sample_world sample_entered
                  (fun c v p _ => proj1 (toy_stable c v p))
                  (fun c v p _ => proj2 (toy_stable c v p))
                  eq_refl)).
  reflexivity.
Defined.

(** ** What the output shows of a command's outcome *)

Lemma written_printed (t1 t2 : list event) :
  printed t1 = printed t2 -> written t1 = written t2.
Proof.
  revert t2; induction t1 as [|e t1 IH]; intro t2.
  - induction t2 as [|e2 t2 IH2]; [reflexivity|].
    destruct e2; simpl; try exact IH2. discriminate.
  - destruct e; simpl; try apply IH.
    induction t2 as [|e2 t2 IH2]; [discriminate|].
    destruct e2; simpl; try exact IH2.
    intro E. injection E as -> E. now rewrite (IH t2 E).
Qed.

(** X7.  The output of a run shows of a command's outcome only whether
    the process completed with text output, whether its return code
    was zero and, when it was not, its standard error.  Change the
    outcomes in any way that leaves alone the commands that could not
    be started or whose output is not text, and that for a completed
    process keeps zero codes zero, non-zero codes non-zero and the
    standard error of failures: the run makes the same print calls,
    writes the same stream, makes the same checks, issues the same
    commands, and ends with the same result in the same world.  So the
    value of a non-zero code, the standard output of any command and
    the standard error of a successful command never reach the
    output. *)
Theorem output_hides_codes_and_success_streams
  {World : Type} {H : Host World}
  (f : string -> Spawned -> Spawned) (w : World) :
  (forall c res, exists res',
     f c (Completed res) = Completed res'
     /\ (returncode res' =? 0)%Z = (returncode res =? 0)%Z
     /\ (returncode res <> 0%Z -> stderr res' = stderr res)) ->
  (forall c o, aborts o = true -> f c o = o) ->
  printed (trace_of (@main World (with_outcome f H) w))
  = printed (trace_of (main w))
  /\ written (trace_of (@main World (with_outcome f H) w))
     = written (trace_of (main w))
  /\ exists_log (trace_of (@main World (with_outcome f H) w))
     = exists_log (trace_of (main w))
  /\ commands (trace_of (@main World (with_outcome f H) w))
     = commands (trace_of (main w))
  /\ result_of (@main World (with_outcome f H) w) = result_of (main w)
  /\ world_of (@main World (with_outcome f H) w) = world_of (main w).
Proof.
  intros Hdone Hkeep.
  assert (Hk : forall c o, escapes (f c o) = escapes o).
  { intros c [res | code | e].
    - destruct (Hdone c res) as (res' & -> & _). reflexivity.
    - now rewrite Hkeep.
    - now rewrite Hkeep. }
  assert (Hp : forall c o, handler_prints c (f c o) = handler_prints c o).
  { intros c [res | code | e].
    - destruct (Hdone c res) as (res' & -> & Hz & He). cbn [handler_prints].
      rewrite Hz. destruct (returncode res =? 0)%Z eqn:E; [reflexivity|].
      apply Z.eqb_neq in E. now rewrite (He E).
    - now rewrite Hkeep.
    - now rewrite Hkeep. }
  rewrite (main_with_outcome f Hk Hp).
  destruct (logs_remap f (trace_of (main w))) as (L1 & L2 & L3).
  split; [exact L1|]. split; [now apply written_printed|].
  split; [exact L2|]. split; [exact L3|]. split; reflexivity.
Qed.

Lemma output_hides_codes_and_success_streams_witness :
  runs (trace_of (@main ToyOS (with_outcome muddle toy_host) sample_world))
  <> runs (trace_of (main sample_world))
  /\ written (trace_of (@main ToyOS (with_outcome muddle toy_host) sample_world))
     = written (trace_of (main sample_world)).
Proof.
  split; [discriminate|].
  apply (output_hides_codes_and_success_streams muddle sample_world).
  - intros c res. unfold muddle.
    destruct (returncode res =? 0)%Z eqn:E.
    + eexists. split; [reflexivity|]. split; [reflexivity|].
      intro Hn. apply Z.eqb_eq in E. contradiction.
    + eexists. split; [reflexivity|]. split; [|reflexivity].
      simpl. apply Z.eqb_neq. lia.
  - intros c [res| |] Ha; [discriminate Ha | reflexivity | reflexivity].
Defined.

(** ** Reading the path back from a command line *)

Lemma substring_prefix (a s : string) :
  substring 0 (String.length a) (a ++ s) = a.
Proof.
  induction a as [|c a IH]; simpl; [now destruct s | now rewrite IH].
Qed.

Lemma build_cmd_substring (abs : string) :
  substring 48 (String.length abs) (build_cmd abs) = abs.
Proof. unfold build_cmd, dquote. simpl. apply substring_prefix. Qed.

(** X8.  The command line keeps the absolute path whole: the path is
    the text of the command from its 49th character on, less the three
    closing characters, so two different absolute paths never give the
    same command line. *)
Theorem open_command_keeps_the_path (abs : string) :
  substring 48 (String.length (build_cmd abs) - 51) (build_cmd abs) = abs
  /\ forall other, build_cmd abs = build_cmd other -> abs = other.
Proof.
  split.
  - rewrite build_cmd_length.
    replace (51 + String.length abs - 51) with (String.length abs) by lia.
    apply build_cmd_substring.
  - intros other E.
    assert (El : String.length abs = String.length other).
    { apply (f_equal String.length) in E.
      rewrite !build_cmd_length in E. lia. }
    rewrite <- (build_cmd_substring abs), <- (build_cmd_substring other).
    now rewrite E, El.
Qed.

Lemma open_command_keeps_the_path_witness :
  build_cmd "/a b.swift" = build_cmd "/a b.swift"
  /\ "/a b.swift" = "/a b.swift".
Proof.
  split; [reflexivity|].
  apply (proj2 (open_command_keeps_the_path "/a b.swift") "/a b.swift").
  reflexivity.
Defined.

(** ** The value [run_command] returns *)

Lemma lstrip_fixed (x : string) :
  (forall c, first_char x = Some c -> isspace c = false) -> lstrip x = x.
Proof.
  destruct x as [|c r]; simpl; [reflexivity|].
  intro Hf. now rewrite (Hf c eq_refl).
Qed.

Lemma rstrip_fixed (x : string) :
  (forall c, last_char x = Some c -> isspace c = false) -> rstrip x = x.
Proof.
  induction x as [|c r IH]; simpl; [reflexivity|]. intro Hl.
  destruct r as [|d r'].
  - simpl. now rewrite (Hl c eq_refl).
  - rewrite (IH Hl). reflexivity.
Qed.

Lemma strip_idempotent (s : string) : strip (strip s) = strip s.
Proof.
  destruct (strip_spec s) as (a & b & _ & _ & _ & Hf & Hl).
  unfold strip at 1. rewrite (lstrip_fixed _ Hf). now apply rstrip_fixed.
Qed.

Lemma all_space_app (a b : string) :
  all_space (a ++ b) = all_space a && all_space b.
Proof.
  induction a as [|c a IH]; simpl; [reflexivity|].
  now rewrite IH, andb_assoc.
Qed.

Lemma lstrip_all_space (s : string) :
  all_space s = true -> lstrip s = EmptyString.
Proof.
  induction s as [|c r IH]; simpl; [reflexivity|].
  intro E. apply andb_prop in E as [Hc Hr]. rewrite Hc. now apply IH.
Qed.

Lemma strip_empty_iff (s : string) :
  strip s = EmptyString <-> all_space s = true.
Proof.
  split.
  - intro E. destruct (strip_spec s) as (a & b & Es & Ha & Hb & _).
    rewrite E in Es. simpl in Es. rewrite Es, all_space_app, Ha, Hb.
    reflexivity.
  - intro E. unfold strip. now rewrite (lstrip_all_space s E).
Qed.

(** X9.  When [run_command] returns a text, the process completed with
    text output and code zero, the text is its standard output
    stripped, it has nothing left to strip (stripping it again gives
    it back), and it is the empty text exactly when the captured
    standard output was nothing but whitespace: an empty result is not
    confused with [None], the result of a failure. *)
Theorem run_command_value_is_stripped
  {World : Type} {H : Host World} (cmd : string) (w : World) (v : string) :
  result_of (run_command cmd w) = Ok (Some v) ->
  exists res,
    fst (host_spawn cmd w) = Completed res
    /\ returncode res = 0%Z
    /\ v = strip (stdout res)
    /\ strip v = v
    /\ (v = EmptyString <-> all_space (stdout res) = true).
Proof.
  rewrite run_command_unfold. unfold result_of; cbn [fst].
  destruct (fst (host_spawn cmd w)) as [res | code | [e|]];
    cbn [escapes run_value]; intro Hv; try discriminate Hv.
  destruct (returncode res =? 0)%Z eqn:E; [|discriminate Hv].
  injection Hv as <-. apply Z.eqb_eq in E.
  exists res. split; [reflexivity|]. split; [exact E|].
  split; [reflexivity|].
  split; [apply strip_idempotent | apply strip_empty_iff].
Qed.

Lemma run_command_value_is_stripped_witness :
  result_of (run_command
               (build_cmd (in_project "PrestigeNative/Core/Models/APIEndpoints.swift"))
               sample_entered)
  = Ok (Some "opened")
  /\ strip "opened" = "opened".
Proof.
  assert (E : result_of (run_command
                           (build_cmd (in_project "PrestigeNative/Core/Models/APIEndpoints.swift"))
                           sample_entered)
              = Ok (Some "opened")) by reflexivity.
  split; [exact E|].
  destruct (run_command_value_is_stripped _ _ _ E)
    as (res & _ & _ & _ & Hs & _).
  exact Hs.
Defined.

(** ** Concrete runs *)

Example strip_example :
  strip (String "009" (" opened document " ++ LF)) = "opened document".
Proof. reflexivity. Qed.

Example sample_run_output :
  written (trace_of (main sample_world))
  = (adding_line "PrestigeNative/Core/Models/APIEndpoints.swift" ++ LF
     ++ adding_line "PrestigeNative/Core/Models/APIModels.swift" ++ LF
     ++ "Error running command: "
     ++ build_cmd (in_project "PrestigeNative/Core/Models/APIModels.swift") ++ LF
     ++ "Error: execution error" ++ LF ++ LF
     ++ written (skipn 12 (trace_of (main sample_world))))%string
  /\ length (printed (trace_of (main sample_world))) = 16
  /\ count_lf (written (trace_of (main sample_world))) = 17.
Proof. repeat split. Qed.

Example quoted_path_breaks_pattern :
  quote_skeleton (build_cmd ("/tmp/it" ++ squote ++ "s.swift")) <> plain_skeleton.
Proof. discriminate. Qed.
